(** * Ai-Kall: reply parser, session configurator, identity store and
      send / record handlers of the tutor application

    The repository holds several successive versions of the same two
    files, [App.tsx] and [services/geminiService.ts].  Each version is
    embedded in a module of its own:

    - [App1]: first document of [src/App.tsx];
    - [App2]: second document of [src/App.tsx];
    - [App3]: [src/unnamed/part_002];
    - [App4]: [src/unnamed/part_003];
    - [Service1]: [src/services/geminiService.ts];
    - [Service2]: [src/unnamed/part_000];
    - [Service3]: first document of [src/unnamed/part_001].

    JavaScript strings are modelled as [string]: a sequence of code units
    restricted to the range 0..255.  All markers of the program are
    ASCII. *)

From Equations Require Import Equations.
From stdpp Require Import base option list strings gmap.
From Stdlib Require Import Ascii String NArith Lia.

Local Open Scope string_scope.

(* stdpp freezes [append]; the proofs below compute with it. *)
Arguments String.append !s1 s2 : simpl nomatch.

(** ** JavaScript string primitives *)

Module JS.

(** [strip_prefix p s] is the rest of [s] after [p] when [s] starts with
    [p]: the test the engine makes at each position of [StringIndexOf]. *)
Fixpoint strip_prefix (p s : string) : option string :=
  match p with
  | EmptyString => Some s
  | String a p' =>
      match s with
      | EmptyString => None
      | String b s' => if Ascii.eqb a b then strip_prefix p' s' else None
      end
  end.

(** [cut sep s] looks for the first occurrence of [sep] in [s], scanning
    from the left, and gives the text before it and the text after it.
    The length of the first component is [s.indexOf(sep)]. *)
Fixpoint cut (sep s : string) : option (string * string) :=
  match strip_prefix sep s with
  | Some rest => Some (EmptyString, rest)
  | None =>
      match s with
      | EmptyString => None
      | String c s' =>
          match cut sep s' with
          | Some (b, a) => Some (String c b, a)
          | None => None
          end
      end
  end.

(** [s.indexOf(sep)], with [None] for -1. *)
Definition indexOf (sep s : string) : option nat :=
  match cut sep s with
  | Some (b, _) => Some (String.length b)
  | None => None
  end.

(** [s.includes(sep)]. *)
Definition includes (sep s : string) : bool :=
  match indexOf sep s with
  | Some _ => true
  | None => false
  end.

(** [s.replace(pat, rep)] with a string pattern: only the first
    occurrence is replaced.  [rep] holds no [$] pattern in this program. *)
Definition replace (pat rep s : string) : string :=
  match cut pat s with
  | Some (b, a) => b +:+ rep +:+ a
  | None => s
  end.

Lemma strip_prefix_app p s r :
  strip_prefix p s = Some r -> s = p +:+ r.
Proof.
  revert s; induction p as [|a p IH]; intros s; simpl; [congruence|].
  destruct s as [|b s]; [discriminate|].
  destruct (Ascii.eqb_spec a b) as [->|]; [|discriminate].
  intros H; rewrite (IH _ H); reflexivity.
Qed.

Lemma strip_prefix_here p r : strip_prefix p (p +:+ r) = Some r.
Proof.
  induction p as [|a p IH]; simpl; [reflexivity|].
  rewrite Ascii.eqb_refl; exact IH.
Qed.

Lemma length_app (a b : string) :
  String.length (a +:+ b) = String.length a + String.length b.
Proof. induction a; simpl; congruence. Qed.

Lemma app_assoc (a b c : string) : (a +:+ b) +:+ c = a +:+ (b +:+ c).
Proof. induction a; simpl; congruence. Qed.

Lemma app_nil_r (a : string) : a +:+ "" = a.
Proof. induction a; simpl; congruence. Qed.

(** The two components of [cut] rebuild the string around the separator. *)
Lemma cut_app sep s b a :
  cut sep s = Some (b, a) -> s = b +:+ sep +:+ a.
Proof.
  revert b a; induction s as [|c s IH]; intros b a; simpl.
  - destruct (strip_prefix sep "") eqn:E; [|discriminate].
    intros [= <- <-]; simpl; exact (strip_prefix_app _ _ _ E).
  - destruct (strip_prefix sep (String c s)) eqn:E.
    + intros [= <- <-]; simpl; exact (strip_prefix_app _ _ _ E).
    + destruct (cut sep s) as [[b' a']|] eqn:E'; [|discriminate].
      intros [= <- <-]; simpl; rewrite (IH _ _ eq_refl); reflexivity.
Qed.

(** What follows the separator is strictly shorter than the string, as
    soon as the separator is not empty. *)
Lemma cut_shorter sep s b a :
  sep <> "" -> cut sep s = Some (b, a) -> String.length a < String.length s.
Proof.
  intros Hsep H; apply cut_app in H; subst s.
  rewrite !length_app; destruct sep; [congruence|simpl; lia].
Qed.

Lemma strip_prefix_shorter p s r :
  p <> "" -> strip_prefix p s = Some r -> String.length r < String.length s.
Proof.
  intros Hp H; apply strip_prefix_app in H; subst s.
  rewrite length_app; destruct p; [congruence|simpl; lia].
Qed.

(** A value together with the proof that it is the one inspected. *)
Definition inspect {A : Type} (x : A) : {y : A | x = y} := exist _ x eq_refl.

(** [s.split(sep)] for a separator that starts with [c]: the loop of
    the language definition, which looks for the next occurrence from the
    end of the previous one and pushes the text in between, then the rest. *)
Equations? split_at (c : ascii) (p : string) (s : string) : list string
  by wf (String.length s) lt :=
  split_at c p s with inspect (cut (String c p) s) := {
    | exist _ (Some (b, a)) E := b :: split_at c p a;
    | exist _ None _ := [s] }.
Proof. eapply cut_shorter; [|exact E]; discriminate. Qed.

(** [s.split(sep)].  An empty separator splits into code units. *)
Definition split (sep s : string) : list string :=
  match sep with
  | EmptyString => (fun c => String c EmptyString) <$> list_ascii_of_string s
  | String c p => split_at c p s
  end.

(** White space and line terminators, in the range of the model:
    TAB, LF, VT, FF, CR, SP and NBSP. *)
Definition is_white (c : ascii) : bool :=
  let n := N_of_ascii c in
  ((9 <=? n) && (n <=? 13) || (n =? 32) || (n =? 160))%N.

Fixpoint trimStart (s : string) : string :=
  match s with
  | EmptyString => EmptyString
  | String c s' => if is_white c then trimStart s' else s
  end.

Fixpoint trimEnd (s : string) : string :=
  match s with
  | EmptyString => EmptyString
  | String c s' =>
      match trimEnd s' with
      | EmptyString => if is_white c then EmptyString else String c EmptyString
      | r => String c r
      end
  end.

(** [s.trim()]. *)
Definition trim (s : string) : string := trimEnd (trimStart s).

(** Truthiness of a string: only the empty string is falsy. *)
Definition truthy (s : string) : bool :=
  match s with EmptyString => false | _ => true end.

(** [a || b] on strings. *)
Definition or_str (a b : string) : string := if truthy a then a else b.

(** [a || b] where [a] is a string or [undefined]. *)
Definition or_undef (a : option string) (b : string) : string :=
  match a with
  | Some s => or_str s b
  | None => b
  end.

(** Exceptions, and computations that may throw. *)
Inductive exn : Type :=
| TypeError (message : string)
| Error (message : string).

Inductive completion (A : Type) : Type :=
| Normal (a : A)
| Throw (e : exn).
Arguments Normal {A} a.
Arguments Throw {A} e.

Definition bind {A B} (m : completion A) (k : A -> completion B) : completion B :=
  match m with
  | Normal a => k a
  | Throw e => Throw e
  end.

(** [parts[i]]: [undefined] out of range. *)
Definition at_index (parts : list string) (i : nat) : option string := parts !! i.

(** [v.m()] for a method of strings: a [TypeError] on [undefined]. *)
Definition call_on {A} (v : option string) (m : string -> A) : completion A :=
  match v with
  | Some s => Normal (m s)
  | None => Throw (TypeError "Cannot read properties of undefined")
  end.

(** [v?.m()]. *)
Definition call_opt (v : option string) (m : string -> string) : option string :=
  m <$> v.

End JS.

(** [completion] is a monad: [x ← m; k] runs [k] when [m] did not throw. *)
#[export] Instance completion_ret : MRet JS.completion := @JS.Normal.
#[export] Instance completion_bind : MBind JS.completion :=
  fun A B k m => JS.bind m k.

(** ** Shared declarations ([types.ts]) and the two markers *)

Inductive Role : Type := USER | TUTOR.

Inductive EnglishLevel : Type := A1 | A2 | B1 | B2 | C1 | C2.

Inductive LanguageGoal : Type := English | Russian.

Inductive PracticeMode : Type := MENU | CONVERSATION | INTERVIEW | CUSTOM.

Record User : Type := mkUser {
  user_name : string;
  user_level : EnglishLevel;
  user_targetLanguage : LanguageGoal }.

(** [id] and [timestamp] of a message come from [Math.random] and
    [new Date()]: the environment hands them over as a [Stamp]. *)
Record Stamp : Type := mkStamp { stamp_id : string; stamp_time : N }.

Record Message : Type := mkMessage {
  msg_id : string;
  msg_role : Role;
  msg_text : string;
  msg_timestamp : N }.

#[export] Instance Role_eq_dec : EqDecision Role.
Proof. solve_decision. Defined.
#[export] Instance EnglishLevel_eq_dec : EqDecision EnglishLevel.
Proof. solve_decision. Defined.
#[export] Instance LanguageGoal_eq_dec : EqDecision LanguageGoal.
Proof. solve_decision. Defined.

(** The string a level or a goal is at run time. *)
Definition level_name (l : EnglishLevel) : string :=
  match l with
  | A1 => "A1" | A2 => "A2" | B1 => "B1" | B2 => "B2" | C1 => "C1" | C2 => "C2"
  end.

Definition goal_name (g : LanguageGoal) : string :=
  match g with English => "English" | Russian => "Russian" end.

Definition TRANSCRIPTION : string := "[TRANSCRIPTION]".
Definition RESPONSE : string := "[RESPONSE]".

(** ** The state the handlers of [App] work on

    A handler is a function from the state it reads to the state it
    leaves.  What the environment decides (the outcome of a remote call,
    the identifiers of the messages) comes in as an [Env]; the remote
    calls a handler makes are listed in the order it makes them. *)

(** The local key-value store: the record [tutor_user] and the directory
    [tutor_users_db].  [None] is a key that was never set ([getItem]
    gives [null]).  The texts are [JSON.stringify] of the values, read
    back by [JSON.parse]. *)
Record StoredUser : Type := mkStored {
  stored_password : string;
  stored_level : EnglishLevel;
  stored_targetLanguage : LanguageGoal }.

Record LocalStorage : Type := mkStorage {
  tutor_user : option User;
  tutor_users_db : option (gmap string StoredUser) }.

(** The fields of the authentication form, as [handleAuth] reads them. *)
Record AuthForm : Type := mkForm {
  username : string;
  password : string;
  level : EnglishLevel;
  targetLanguage : LanguageGoal;
  isRegistering : bool }.

(** What [handleAuth] writes: two pieces of component state and the store. *)
Record AuthState : Type := mkAuth {
  currentUser : option User;
  authError : string;
  localStorage : LocalStorage }.

(** [JSON.parse(localStorage.getItem('tutor_users_db') || '{}')]. *)
Definition load_users (ls : LocalStorage) : gmap string StoredUser :=
  default ∅ (tutor_users_db ls).

(** The names every object inherits from [Object.prototype]. *)
Definition object_prototype_names : list string :=
  [ "constructor"; "__defineGetter__"; "__defineSetter__"; "hasOwnProperty";
    "__lookupGetter__"; "__lookupSetter__"; "isPrototypeOf";
    "propertyIsEnumerable"; "toString"; "valueOf"; "__proto__";
    "toLocaleString" ].

(** [users[name]]: an own property of the directory, else a member of
    [Object.prototype], else [undefined]. *)
Inductive Property : Type :=
| Own (u : StoredUser)
| Inherited
| Undefined.

Definition get_property (users : gmap string StoredUser) (name : string) : Property :=
  match users !! name with
  | Some u => Own u
  | None => if bool_decide (name ∈ object_prototype_names) then Inherited else Undefined
  end.

(** Truthiness of [users[name]]: records and inherited members are
    objects. *)
Definition property_truthy (p : Property) : bool :=
  match p with Undefined => false | _ => true end.

(** [stored.password !== password]; an inherited member has no
    [password], and [undefined] differs from every string. *)
Definition password_differs (p : Property) (password : string) : bool :=
  match p with
  | Own u => negb (String.eqb (stored_password u) password)
  | _ => true
  end.

(** [g || 'English'] on a target language. *)
Definition goal_or (g d : LanguageGoal) : LanguageGoal :=
  if JS.truthy (goal_name g) then g else d.

(** A recorded clip or one of its chunks. *)
Record Blob : Type := mkBlob { blob_size : N; blob_type : string }.

(** [new Blob(chunks, { type })]. *)
Definition new_Blob (chunks : list Blob) (type : string) : Blob :=
  mkBlob (foldr (fun c n => (blob_size c + n)%N) 0%N chunks) type.

(** The calls to [tutorService]. *)
Inductive Call : Type :=
| SendMessage (text : string)
| ProcessAudio (clip : Blob)
| GetSpeech (text : string).

(** The conversation state. *)
Record Chat : Type := mkChat {
  messages : list Message;
  inputText : string;
  isProcessing : bool;
  processingStatus : string;
  isPlaying : bool }.

Definition setMessages (f : list Message -> list Message) (st : Chat) : Chat :=
  mkChat (f (messages st)) (inputText st) (isProcessing st)
    (processingStatus st) (isPlaying st).
Definition setInputText (v : string) (st : Chat) : Chat :=
  mkChat (messages st) v (isProcessing st) (processingStatus st) (isPlaying st).
Definition setIsProcessing (v : bool) (st : Chat) : Chat :=
  mkChat (messages st) (inputText st) v (processingStatus st) (isPlaying st).
Definition setProcessingStatus (v : string) (st : Chat) : Chat :=
  mkChat (messages st) (inputText st) (isProcessing st) v (isPlaying st).
Definition setIsPlaying (v : bool) (st : Chat) : Chat :=
  mkChat (messages st) (inputText st) (isProcessing st) (processingStatus st) v.

(** [addMessage]: the new message goes to the end of the list. *)
Definition addMessage (stamp : Stamp) (role : Role) (text : string) (st : Chat) : Chat :=
  setMessages
    (fun prev => (prev ++ [mkMessage (stamp_id stamp) role text (stamp_time stamp)])%list)
    st.

(** What the environment settles during one run of a handler: the
    promise of [sendMessage] or [processAudio], the promise of
    [getSpeech], whether the audio decodes and starts, and the stamps of
    the two messages the handler may add. *)
Record Env : Type := mkEnv {
  reply : JS.completion string;
  speech : JS.completion string;
  decodes : bool;
  stamp1 : Stamp;
  stamp2 : Stamp }.

(** [err.message], and [String(err)]. *)
Definition exn_message (e : JS.exn) : string :=
  match e with JS.TypeError m | JS.Error m => m end.

Definition exn_String (e : JS.exn) : string :=
  let name := match e with JS.TypeError _ => "TypeError" | JS.Error _ => "Error" end in
  match exn_message e with
  | EmptyString => name
  | m => name +:+ ": " +:+ m
  end.

(** [playResponse] of the versions that reset [isPlaying] when there is
    no audio: the flag stays up only while a decoded clip plays. *)
Definition playResponse (env : Env) (text : string) (st : Chat) : Chat * list Call :=
  let st := setIsPlaying true st in
  match speech env with
  | JS.Throw _ => (setIsPlaying false st, [GetSpeech text])
  | JS.Normal base64Audio =>
      if negb (JS.truthy base64Audio) then (setIsPlaying false st, [GetSpeech text])
      else if decodes env then (st, [GetSpeech text])
      else (setIsPlaying false st, [GetSpeech text])
  end.

(** [Partial<User>]: the fields an update carries. *)
Record PartialUser : Type := mkPartial {
  upd_username : option string;
  upd_level : option EnglishLevel;
  upd_targetLanguage : option LanguageGoal }.

(** [{ ...currentUser, ...updates }]. *)
Definition merge_user (u : User) (updates : PartialUser) : User :=
  mkUser (default (user_name u) (upd_username updates))
    (default (user_level u) (upd_level updates))
    (default (user_targetLanguage u) (upd_targetLanguage updates)).

(** [{ ...users[name], ...updates }] on an own record.  A [username] in
    the update becomes one more field of the record, which nothing
    reads: the model keeps the three fields that are read. *)
Definition merge_stored (s : StoredUser) (updates : PartialUser) : StoredUser :=
  mkStored (stored_password s)
    (default (stored_level s) (upd_level updates))
    (default (stored_targetLanguage s) (upd_targetLanguage updates)).

(** The chunks of a recording: [startRecording] empties
    [audioChunksRef.current], and each [dataavailable] event goes through
    the handler [push] of the version. *)
Definition recorded (push : Blob -> list Blob -> list Blob) (events : list Blob)
    : list Blob :=
  foldl (fun chunks data => push data chunks) [] events.

(** [recorder.ondataavailable] of the versions that keep a chunk only
    when it holds data. *)
Definition push_nonempty (data : Blob) (chunks : list Blob) : list Blob :=
  if (0 <? blob_size data)%N then (chunks ++ [data])%list else chunks.

(** ** The session configurator ([GeminiTutorService])

    The class keeps the level, the target language, the mode and the
    scenario of [startSession], and renders them into the instruction
    string of the model.  The target language is the string the field
    holds at run time. *)

(** [this.targetLanguage === 'English' ? 'English' : 'Russian']. *)
Definition tutorLang (targetLanguage : string) : string :=
  if String.eqb targetLanguage "English" then "English" else "Russian".

(** The [switch] on the practice mode. *)
Definition modeInstruction (mode : PracticeMode) (customScenario : string) : string :=
  match mode with
  | CONVERSATION =>
      "Context: A casual everyday conversation. Be friendly and informal."
  | INTERVIEW =>
      "Context: A formal job interview. You are a professional recruiter/hiring manager. Ask challenging interview questions."
  | CUSTOM =>
      "Context: " +:+ customScenario +:+ ". Adopt this persona/scenario strictly."
  | MENU => "Context: General practice."
  end.

Module Service1.

Definition levelDescriptions (level : EnglishLevel) : string :=
  match level with
  | A1 => "Beginner. Use very simple words and short sentences."
  | A2 => "Elementary. Use simple language but start introducing basic past and future tenses."
  | B1 => "Intermediate. Use standard language. Focus on common expressions."
  | B2 => "Upper Intermediate. Use a rich vocabulary. Engage in deeper discussions."
  | C1 => "Advanced. Use sophisticated vocabulary and complex grammar."
  | C2 => "Proficiency. Speak naturally as a native professional would."
  end.

(** The template of [initChat]. *)
Definition instructions (level : EnglishLevel) (targetLanguage : string)
    (mode : PracticeMode) (scenario : string) : string :=
  "You are a friendly and professional "
  +:+ tutorLang targetLanguage
  +:+ " Tutor. 
    Current Student Level: "
  +:+ level_name level
  +:+ ". "
  +:+ levelDescriptions level
  +:+ "
    "
  +:+ modeInstruction mode scenario
  +:+ "
    
    Your goals:
    1. Listen to the user's spoken or written "
  +:+ tutorLang targetLanguage
  +:+ ".
    2. Politely correct any grammatical errors or awkward phrasing relative to their level.
    3. Maintain an encouraging conversation based on the context provided.
    4. Keep your responses short (2-3 sentences max) so they are suitable for voice playback.
    5. If the user makes a mistake, explain it briefly in "
  +:+ tutorLang targetLanguage
  +:+ ".
    
    Output format: Provide your response in plain text. Do not use complex markdown.".

(** The fields of the service; [chat] is the system instruction of the
    chat that [initChat] creates, [None] before the first session. *)
Record Service : Type := mkService {
  currentLevel : EnglishLevel;
  targetLanguage : string;
  currentMode : PracticeMode;
  customScenario : string;
  chat : option string }.

Definition initial : Service := mkService B1 "English" MENU EmptyString None.

Definition initChat (svc : Service) : Service :=
  mkService (currentLevel svc) (targetLanguage svc) (currentMode svc)
    (customScenario svc)
    (Some (instructions (currentLevel svc) (targetLanguage svc)
             (currentMode svc) (customScenario svc))).

Definition startSession (level : EnglishLevel) (targetLanguage : string)
    (mode : PracticeMode) (scenario : string) (svc : Service) : Service :=
  initChat (mkService level targetLanguage mode scenario (chat svc)).

(** What [processAudio] sends: the clip with its own type, and the
    prompt that asks for the marker.  [data] is the clip in base 64. *)
Record AudioRequest : Type := mkAudioRequest {
  req_mimeType : string;
  req_data : string;
  req_text : string }.

Definition processAudio_request (svc : Service) (audioBlob : Blob) (data : string)
    : AudioRequest :=
  let tutorLang := tutorLang (targetLanguage svc) in
  mkAudioRequest (blob_type audioBlob) data
    ("Transcribe exactly what I said in " +:+ tutorLang
     +:+ ", and then respond as my " +:+ tutorLang
     +:+ " tutor. Separate your transcription from your response with a marker [RESPONSE].").

(** [processAudio], given how the call to the model settles: the text of
    the response, which may be [undefined], or a rejection. *)
Definition processAudio (remote : JS.completion (option string))
    : JS.completion string :=
  response_text ← remote;
  mret (JS.or_undef response_text EmptyString).

(** [sendMessage]: [this.chat] is [undefined] before the first session,
    and a method call on it throws. *)
Definition sendMessage (svc : Service) (remote : JS.completion (option string))
    : JS.completion string :=
  match chat svc with
  | None => JS.Throw (JS.TypeError "Cannot read properties of undefined")
  | Some _ =>
      response_text ← remote;
      mret (JS.or_undef response_text EmptyString)
  end.

End Service1.

Module Service2.

Definition levelDescriptions (level : EnglishLevel) : string :=
  match level with
  | A1 => "Beginner. Use very simple words and short sentences."
  | A2 => "Elementary. Simple language but start introducing basic past and future tenses."
  | B1 => "Intermediate. Standard language. Focus on common expressions."
  | B2 => "Upper Intermediate. Use a rich vocabulary. Engage in deeper discussions."
  | C1 => "Advanced. Use sophisticated vocabulary and complex grammar."
  | C2 => "Proficiency. Speak naturally as a native professional would."
  end.

Record Service : Type := mkService {
  currentLevel : EnglishLevel;
  targetLanguage : string;
  currentMode : PracticeMode;
  customScenario : string }.

Definition initial : Service := mkService B1 "English" MENU EmptyString.

(** The template of [getSystemInstruction], on the fields themselves. *)
Definition systemInstruction (level : EnglishLevel) (targetLanguage : string)
    (mode : PracticeMode) (scenario : string) : string :=
  "You are a friendly and professional "
  +:+ tutorLang targetLanguage
  +:+ " Tutor. 
    Current Student Level: "
  +:+ level_name level
  +:+ ". "
  +:+ levelDescriptions level
  +:+ "
    "
  +:+ modeInstruction mode scenario
  +:+ "
    
    Your goals:
    1. Listen to the user's spoken or written input.
    2. Politely correct any grammatical errors or awkward phrasing relative to their level.
    3. Maintain an encouraging conversation.
    4. Keep your responses short (max 3 sentences) for voice playback.
    
    IMPORTANT: When processing audio, you must provide both a transcription of what you heard and your response.
    Format your entire response exactly like this:
    [TRANSCRIPTION] (what you heard the user say)
    [RESPONSE] (your correction and reply to the user)".

Definition getSystemInstruction (svc : Service) : string :=
  systemInstruction (currentLevel svc) (targetLanguage svc) (currentMode svc)
    (customScenario svc).

Definition startSession (level : EnglishLevel) (targetLanguage : string)
    (mode : PracticeMode) (scenario : string) (svc : Service) : Service :=
  mkService level targetLanguage mode scenario.

(** The type [processAudio] sends for a clip:
    [audioBlob.type.split(';')[0] || 'audio/webm']. *)
Definition request_mimeType (audioBlob : Blob) : string :=
  JS.or_undef (JS.at_index (JS.split ";" (blob_type audioBlob)) 0) "audio/webm".

End Service2.

(** The version of part_001 (first document): the key of the API is
    looked up at each call, and the errors of the remote calls are
    wrapped. *)
Module Service3.

Definition levelDescriptions (level : EnglishLevel) : string :=
  match level with
  | A1 => "Beginner. Use very simple words."
  | A2 => "Elementary. Simple sentences."
  | B1 => "Intermediate. Standard expressions."
  | B2 => "Upper Intermediate. Rich vocabulary."
  | C1 => "Advanced. Complex grammar."
  | C2 => "Proficiency. Native professional level."
  end.

(** The chain of conditionals on the mode. *)
Definition modeInstruction (mode : PracticeMode) (customScenario : string) : string :=
  match mode with
  | INTERVIEW => "You are a job interviewer. Be formal."
  | CUSTOM => "Context: " +:+ customScenario
  | _ => "A casual friendly conversation."
  end.

Definition systemInstruction (level : EnglishLevel) (targetLanguage : string)
    (mode : PracticeMode) (scenario : string) : string :=
  "You are a professional "
  +:+ tutorLang targetLanguage
  +:+ " tutor. 
    Student level: "
  +:+ level_name level
  +:+ ". "
  +:+ levelDescriptions level
  +:+ "
    "
  +:+ modeInstruction mode scenario
  +:+ "
    
    Rules:
    1. Transcribe the user audio if provided.
    2. Correct mistakes politely.
    3. Keep responses under 3 sentences.
    4. Return format: [TRANSCRIPTION] text [RESPONSE] text.".

(** [getAI]: [apiKey] is [process.env.API_KEY]. *)
Definition getAI (apiKey : option string) : JS.completion unit :=
  if JS.truthy (default EmptyString apiKey) then mret tt
  else JS.Throw
         (JS.Error "API_KEY is missing in the environment. Please ensure it is configured.").

(** [catch (error) { throw new Error(error.message || fallback) }]. *)
Definition rethrow {A} (fallback : string) (m : JS.completion A) : JS.completion A :=
  match m with
  | JS.Normal a => JS.Normal a
  | JS.Throw error => JS.Throw (JS.Error (JS.or_str (exn_message error) fallback))
  end.

(** The type [processAudio] sends for a clip: the text in front of the
    first semicolon when the type holds one, else the type, or
    audio/webm for an empty type.  An index out of range would give
    [undefined]. *)
Definition request_mimeType (audioBlob : Blob) : option string :=
  if JS.includes ";" (blob_type audioBlob) then
    JS.at_index (JS.split ";" (blob_type audioBlob)) 0
  else
    Some (JS.or_str (blob_type audioBlob) "audio/webm").

(** [sendMessage] and [processAudio], given the key and how the call to
    the model settles. *)
Definition sendMessage (apiKey : option string)
    (remote : JS.completion (option string)) : JS.completion string :=
  rethrow "Failed to send message"
    (_ ← getAI apiKey;
     response_text ← remote;
     mret (JS.or_undef response_text "No response.")).

Definition processAudio (apiKey : option string)
    (remote : JS.completion (option string)) : JS.completion string :=
  rethrow "Failed to process audio"
    (_ ← getAI apiKey;
     response_text ← remote;
     mret (JS.or_undef response_text "No response from AI.")).

(** [getSpeech]: every error ends as the empty string. *)
Definition getSpeech (apiKey : option string)
    (remote : JS.completion (option string)) : JS.completion string :=
  match (_ ← getAI apiKey;
         data ← remote;
         mret (JS.or_undef data EmptyString)) with
  | JS.Normal audio => JS.Normal audio
  | JS.Throw _ => JS.Normal EmptyString
  end.

End Service3.

(** ** The reply parser, version by version

    Each [parse] gives the pair of texts that the [onstop] handler adds to
    the conversation: the message of the user (the transcription as it is
    displayed) and the message of the tutor (the response). *)

Module App1.

(** The [if] / [else if] / [else] of [recorder.onstop]: the pair of the
    variables [transcription] and [response]. *)
Definition parse_vars (result : string) : JS.completion (string * string) :=
  if JS.includes TRANSCRIPTION result && JS.includes RESPONSE result then
    let parts := JS.split RESPONSE result in
    transcription ← JS.call_on (JS.at_index parts 0)
                      (fun p => JS.trim (JS.replace TRANSCRIPTION "" p));
    response ← JS.call_on (JS.at_index parts 1) JS.trim;
    mret (transcription, response)
  else if JS.includes RESPONSE result then
    let parts := JS.split RESPONSE result in
    transcription ← JS.call_on (JS.at_index parts 0) JS.trim;
    response ← JS.call_on (JS.at_index parts 1) JS.trim;
    mret (transcription, response)
  else
    mret ("Audio processed", result).

Definition no_transcription : string :=
  "I heard something but couldn't transcribe it.".

(** The texts of the two [addMessage] calls. *)
Definition parse (result : string) : JS.completion (string * string) :=
  '(transcription, response) ← parse_vars result;
  mret (JS.or_str transcription no_transcription, response).


(** [handleAuth].  In the login branch the test lets only an own record
    with the right password through: the last case of the [match] is
    never reached. *)
Definition handleAuth (form : AuthForm) (st : AuthState) : AuthState :=
  let st := mkAuth (currentUser st) EmptyString (localStorage st) in
  if negb (JS.truthy (username form)) || negb (JS.truthy (password form)) then
    mkAuth (currentUser st) "Please fill in all fields" (localStorage st)
  else
    let users := load_users (localStorage st) in
    if isRegistering form then
      if property_truthy (get_property users (username form)) then
        mkAuth (currentUser st) "User already exists" (localStorage st)
      else
        let newUser := mkUser (username form) (level form) (targetLanguage form) in
        let users :=
          <[username form := mkStored (password form) (level form) (targetLanguage form)]>
            users in
        mkAuth (Some newUser) (authError st) (mkStorage (Some newUser) (Some users))
    else
      let stored := get_property users (username form) in
      if negb (property_truthy stored) || password_differs stored (password form) then
        mkAuth (currentUser st) "Invalid username or password" (localStorage st)
      else
        match stored with
        | Own u =>
            let existingUser :=
              mkUser (username form) (stored_level u)
                (goal_or (stored_targetLanguage u) English) in
            mkAuth (Some existingUser) (authError st)
              (mkStorage (Some existingUser) (tutor_users_db (localStorage st)))
        | _ => st
        end.

(** [handleLogout], on the part of the state modelled here. *)
Definition handleLogout (st : AuthState) : AuthState :=
  mkAuth None (authError st) (mkStorage None (tutor_users_db (localStorage st))).

(** [handleSendText]. *)
Definition handleSendText (env : Env) (st : Chat) : Chat * list Call :=
  if negb (JS.truthy (JS.trim (inputText st))) || isProcessing st then (st, [])
  else
    let userText := inputText st in
    let st := setInputText EmptyString st in
    let st := addMessage (stamp1 env) USER userText st in
    let st := setIsProcessing true st in
    let st := setProcessingStatus "Thinking..." st in
    let '(st, calls) :=
      match reply env with
      | JS.Normal response =>
          let st := addMessage (stamp2 env) TUTOR response st in
          let '(st, played) := playResponse env response st in
          (st, SendMessage userText :: played)
      | JS.Throw err =>
          (addMessage (stamp2 env) TUTOR
             "Sorry, I'm having trouble connecting to my brain." st,
           [SendMessage userText])
      end in
    (setIsProcessing false st, calls).

(** [recorder.onstop]: [chunks] is [audioChunksRef.current] and
    [mimeType] the type chosen when the recording started. *)
Definition onstop (env : Env) (chunks : list Blob) (mimeType : string)
    (st : Chat) : Chat * list Call :=
  let audioBlob := new_Blob chunks (JS.or_str mimeType "audio/wav") in
  let st := setIsProcessing true st in
  let st := setProcessingStatus "Transcribing your voice..." st in
  let '(st, calls) :=
    match result ← reply env; parse result with
    | JS.Normal (transcription, response) =>
        let st := addMessage (stamp1 env) USER transcription st in
        let st := addMessage (stamp2 env) TUTOR response st in
        let '(st, played) := playResponse env response st in
        (st, ProcessAudio audioBlob :: played)
    | JS.Throw err =>
        (addMessage (stamp1 env) TUTOR
           ("I couldn't hear you clearly. Error: " +:+ exn_message err) st,
         [ProcessAudio audioBlob])
    end in
  (setProcessingStatus EmptyString (setIsProcessing false st), calls).

(** [getSupportedMimeType]: the first type of the list that the
    recorder supports, the empty string when it supports none. *)
Definition mime_types : list string :=
  ["audio/webm"; "audio/mp4"; "audio/ogg"; "audio/wav"].

Fixpoint first_supported (isTypeSupported : string -> bool) (types : list string)
    : string :=
  match types with
  | [] => EmptyString
  | type :: rest =>
      if isTypeSupported type then type else first_supported isTypeSupported rest
  end.

Definition getSupportedMimeType (isTypeSupported : string -> bool) : string :=
  first_supported isTypeSupported mime_types.

(** *** The component as a whole

    The state of [App] next to the singleton [tutorService] of
    src/services/geminiService.ts. *)
Record World : Type := mkWorld {
  w_auth : AuthState;
  w_mode : PracticeMode;
  w_customScenarioInput : string;
  w_service : Service1.Service;
  w_chat : Chat }.

(** The state after the first render and its effects: the current user
    is the one the store holds. *)
Definition mount (ls : LocalStorage) : World :=
  mkWorld (mkAuth (tutor_user ls) EmptyString ls) MENU EmptyString
    Service1.initial (mkChat [] EmptyString false EmptyString false).

Definition greetText (selectedMode : PracticeMode) (u : User) : string :=
  match selectedMode with
  | INTERVIEW =>
      "Hello " +:+ user_name u +:+ ". I'm your interviewer today. Let's start."
  | _ =>
      "Hi! Ready to practice " +:+ goal_name (user_targetLanguage u)
      +:+ "? What's on your mind?"
  end.

(** [startPractice]. *)
Definition startPractice (stamp : Stamp) (selectedMode : PracticeMode)
    (scenario : string) (w : World) : World :=
  match currentUser (w_auth w) with
  | None => w
  | Some u =>
      let chat := setMessages (fun _ => []) (w_chat w) in
      let service :=
        Service1.startSession (user_level u) (goal_name (user_targetLanguage u))
          selectedMode scenario (w_service w) in
      mkWorld (w_auth w) selectedMode (w_customScenarioInput w) service
        (addMessage stamp TUTOR (greetText selectedMode u) chat)
  end.

(** [handleLogout], with the mode and the conversation it resets. *)
Definition logout (w : World) : World :=
  mkWorld (handleLogout (w_auth w)) MENU (w_customScenarioInput w) (w_service w)
    (setMessages (fun _ => []) (w_chat w)).

(** [handleProfileUpdate].  When the name of the current user resolves
    to a member of [Object.prototype], the directory would receive a
    record without password, which [StoredUser] cannot hold: the model
    stops there with [None]. *)
Definition handleProfileUpdate (updates : PartialUser) (w : World) : option World :=
  match currentUser (w_auth w) with
  | None => Some w
  | Some u =>
      let updatedUser := merge_user u updates in
      let ls := localStorage (w_auth w) in
      let users := load_users ls in
      let service :=
        match w_mode w with
        | MENU => w_service w
        | mode =>
            Service1.startSession (user_level updatedUser)
              (goal_name (user_targetLanguage updatedUser)) mode
              (w_customScenarioInput w) (w_service w)
        end in
      let finish db :=
        mkWorld (mkAuth (Some updatedUser) (authError (w_auth w))
                   (mkStorage (Some updatedUser) db))
          (w_mode w) (w_customScenarioInput w) service (w_chat w) in
      match get_property users (user_name u) with
      | Own s => Some (finish (Some (<[user_name u := merge_stored s updates]> users)))
      | Undefined => Some (finish (tutor_users_db ls))
      | Inherited => None
      end
  end.

(** What the environment settles during a send or a recording, the
    reply of the service left out: it comes from [tutorService]. *)
Definition with_reply (reply : JS.completion string) (env : Env) : Env :=
  mkEnv reply (speech env) (decodes env) (stamp1 env) (stamp2 env).

(** The three screens of [App], in the order the component tests for
    them. *)
Inductive Screen : Type := AuthScreen | MenuScreen | ChatScreen.

Definition screen (w : World) : Screen :=
  match currentUser (w_auth w) with
  | None => AuthScreen
  | Some _ => match w_mode w with MENU => MenuScreen | _ => ChatScreen end
  end.

(** What the user can do: the handlers wired in the three screens. *)
Inductive Event : Type :=
| SubmitAuth (form : AuthForm)
| ClickLogout
| ClickConversation (stamp : Stamp)
| ClickInterview (stamp : Stamp)
| TypeScenario (text : string)
| ClickCustom (stamp : Stamp)
| ClickBack
| ClickTrash
| TypeText (text : string)
| SendText (remote : JS.completion (option string)) (env : Env)
| ReleaseMic (events : list Blob) (isTypeSupported : string -> bool)
    (remote : JS.completion (option string)) (env : Env).

(** The screen that shows the control, and for the button of the custom
    scenario its [disabled] attribute. *)
Definition enabled (e : Event) (w : World) : bool :=
  match e, screen w with
  | SubmitAuth _, AuthScreen => true
  | (ClickLogout | ClickConversation _ | ClickInterview _ | TypeScenario _), MenuScreen =>
      true
  | ClickCustom _, MenuScreen => JS.truthy (JS.trim (w_customScenarioInput w))
  | (ClickBack | ClickTrash | TypeText _ | SendText _ _ | ReleaseMic _ _ _ _), ChatScreen =>
      true
  | _, _ => false
  end.

Definition with_auth (f : AuthState -> AuthState) (w : World) : World :=
  mkWorld (f (w_auth w)) (w_mode w) (w_customScenarioInput w) (w_service w) (w_chat w).

Definition with_chat (f : Chat -> Chat) (w : World) : World :=
  mkWorld (w_auth w) (w_mode w) (w_customScenarioInput w) (w_service w) (f (w_chat w)).

Definition step (e : Event) (w : World) : World :=
  match e with
  | SubmitAuth form => with_auth (handleAuth form) w
  | ClickLogout => logout w
  | ClickConversation stamp => startPractice stamp CONVERSATION EmptyString w
  | ClickInterview stamp => startPractice stamp INTERVIEW EmptyString w
  | TypeScenario text =>
      mkWorld (w_auth w) (w_mode w) text (w_service w) (w_chat w)
  | ClickCustom stamp => startPractice stamp CUSTOM (w_customScenarioInput w) w
  | ClickBack =>
      mkWorld (w_auth w) MENU (w_customScenarioInput w) (w_service w) (w_chat w)
  | ClickTrash => with_chat (setMessages (fun _ => [])) w
  | TypeText text => with_chat (setInputText text) w
  | SendText remote env =>
      let reply := Service1.sendMessage (w_service w) remote in
      with_chat (fun chat => fst (handleSendText (with_reply reply env) chat)) w
  | ReleaseMic events isTypeSupported remote env =>
      let reply := Service1.processAudio remote in
      with_chat
        (fun chat =>
           fst (onstop (with_reply reply env) (recorded push_nonempty events)
                  (getSupportedMimeType isTypeSupported) chat))
        w
  end.

(** The states the user can bring the component to, one handler after
    the other: each handler runs to its end before the next event. *)
Inductive reachable (ls : LocalStorage) : World -> Prop :=
| reach_mount : reachable ls (mount ls)
| reach_step w e :
    reachable ls w -> enabled e w = true -> reachable ls (step e w).

End App1.

Module App2.

Definition parse_vars (result : string) : JS.completion (string * string) :=
  if JS.includes RESPONSE result then
    let parts := JS.split RESPONSE result in
    trans ← JS.call_on (JS.at_index parts 0)
              (fun p => JS.trim (JS.replace TRANSCRIPTION "" p));
    resp ← JS.call_on (JS.at_index parts 1) JS.trim;
    mret (trans, resp)
  else
    mret (result, result).

Definition parse (result : string) : JS.completion (string * string) :=
  '(trans, resp) ← parse_vars result;
  mret (JS.or_str trans "Audio input", resp).

End App2.

Module App3.

Definition no_transcription : string := "Unintelligible audio".
Definition no_response : string := "I couldn't generate a response.".

Definition parse (result : string) : JS.completion (string * string) :=
  let parts := JS.split RESPONSE result in
  let transcription :=
    JS.or_undef (JS.call_opt (JS.at_index parts 0) JS.trim) no_transcription in
  let tutorResponse :=
    JS.or_undef (JS.call_opt (JS.at_index parts 1) JS.trim) no_response in
  mret (transcription, tutorResponse).

(** [playResponse] of this version: without audio it returns with
    [isPlaying] still set. *)
Definition playResponse (env : Env) (text : string) (st : Chat) : Chat * list Call :=
  let st := setIsPlaying true st in
  match speech env with
  | JS.Throw _ => (setIsPlaying false st, [GetSpeech text])
  | JS.Normal base64Audio =>
      if negb (JS.truthy base64Audio) then (st, [GetSpeech text])
      else if decodes env then (st, [GetSpeech text])
      else (setIsPlaying false st, [GetSpeech text])
  end.

(** [handleSendText]. *)
Definition handleSendText (env : Env) (st : Chat) : Chat * list Call :=
  if negb (JS.truthy (JS.trim (inputText st))) || isProcessing st then (st, [])
  else
    let userText := inputText st in
    let st := setInputText EmptyString st in
    let st := addMessage (stamp1 env) USER userText st in
    let st := setIsProcessing true st in
    let '(st, calls) :=
      match reply env with
      | JS.Normal response =>
          let st := addMessage (stamp2 env) TUTOR response st in
          let '(st, played) := playResponse env response st in
          (st, SendMessage userText :: played)
      | JS.Throw err =>
          (addMessage (stamp2 env) TUTOR
             "Sorry, I'm having trouble connecting right now." st,
           [SendMessage userText])
      end in
    (setIsProcessing false st, calls).

(** [recorder.onstop]: an error is logged and nothing else. *)
Definition onstop (env : Env) (chunks : list Blob) (st : Chat) : Chat * list Call :=
  let audioBlob := new_Blob chunks "audio/webm" in
  let st := setIsProcessing true st in
  let '(st, calls) :=
    match result ← reply env; parse result with
    | JS.Normal (transcription, tutorResponse) =>
        let st := addMessage (stamp1 env) USER transcription st in
        let st := addMessage (stamp2 env) TUTOR tutorResponse st in
        let '(st, played) := playResponse env tutorResponse st in
        (st, ProcessAudio audioBlob :: played)
    | JS.Throw err => (st, [ProcessAudio audioBlob])
    end in
  (setIsProcessing false st, calls).

End App3.

Module App4.

(** [text.replace(/\[TRANSCRIPTION\]|\[RESPONSE\]/g, '')]: from left to
    right, at each position the first alternative that matches is
    removed and the scan goes on after it. *)
Equations? strip_markers (text : string) : string
  by wf (String.length text) lt :=
  strip_markers text with JS.inspect (JS.strip_prefix TRANSCRIPTION text) := {
    | exist _ (Some rest) E := strip_markers rest;
    | exist _ None _ with JS.inspect (JS.strip_prefix RESPONSE text) := {
      | exist _ (Some rest) E := strip_markers rest;
      | exist _ None _ with text := {
        | EmptyString := EmptyString;
        | String c text' := String c (strip_markers text') } } }.
Proof.
  - eapply JS.strip_prefix_shorter; [|exact E]; discriminate.
  - eapply JS.strip_prefix_shorter; [|exact E]; discriminate.
  - simpl; lia.
Qed.

Definition cleanResponse (text : string) : JS.completion string :=
  if JS.includes RESPONSE text then
    JS.call_on (JS.at_index (JS.split RESPONSE text) 1) JS.trim
  else
    mret (JS.trim (strip_markers text)).

Definition parse (result : string) : JS.completion (string * string) :=
  if JS.includes RESPONSE result then
    let parts := JS.split RESPONSE result in
    trans ← JS.call_on (JS.at_index parts 0)
              (fun p => JS.trim (JS.replace TRANSCRIPTION "" p));
    resp ← JS.call_on (JS.at_index parts 1) JS.trim;
    mret (trans, resp)
  else
    resp ← cleanResponse result;
    mret ("Audio message", resp).


(** [handleAuth].  In the login branch the test lets only an own record
    with the right password through: the last case of the [match] is
    never reached. *)
Definition handleAuth (form : AuthForm) (st : AuthState) : AuthState :=
  if negb (JS.truthy (username form)) || negb (JS.truthy (password form)) then
    mkAuth (currentUser st) "Please fill in all fields" (localStorage st)
  else
    let users := load_users (localStorage st) in
    if isRegistering form then
      if property_truthy (get_property users (username form)) then
        mkAuth (currentUser st) "Username already exists" (localStorage st)
      else
        let newUser := mkUser (username form) (level form) (targetLanguage form) in
        let users :=
          <[username form := mkStored (password form) (level form) (targetLanguage form)]>
            users in
        mkAuth (Some newUser) (authError st) (mkStorage (Some newUser) (Some users))
    else
      let stored := get_property users (username form) in
      if negb (property_truthy stored) || password_differs stored (password form) then
        mkAuth (currentUser st) "Invalid credentials" (localStorage st)
      else
        match stored with
        | Own u =>
            let user :=
              mkUser (username form) (stored_level u) (stored_targetLanguage u) in
            mkAuth (Some user) (authError st)
              (mkStorage (Some user) (tutor_users_db (localStorage st)))
        | _ => st
        end.

(** [handleError]: [err?.message || String(err)] goes into the notice. *)
Definition handleError (stamp : Stamp) (err : JS.exn) (st : Chat) : Chat :=
  let errorMsg := JS.or_str (exn_message err) (exn_String err) in
  addMessage stamp TUTOR
    ("I encountered an error: " +:+ errorMsg
     +:+ ". Please ensure you have a valid internet connection.") st.

(** [handleSendText]. *)
Definition handleSendText (env : Env) (st : Chat) : Chat * list Call :=
  if negb (JS.truthy (JS.trim (inputText st))) || isProcessing st then (st, [])
  else
    let userText := inputText st in
    let st := setInputText EmptyString st in
    let st := addMessage (stamp1 env) USER userText st in
    let st := setIsProcessing true st in
    let st := setProcessingStatus "Thinking..." st in
    let '(st, calls) :=
      match rawResult ← reply env; cleanResponse rawResult with
      | JS.Normal result =>
          let st := addMessage (stamp2 env) TUTOR result st in
          let '(st, played) := playResponse env result st in
          (st, SendMessage userText :: played)
      | JS.Throw err => (handleError (stamp2 env) err st, [SendMessage userText])
      end in
    (setIsProcessing false st, calls).

(** [recorder.onstop], with its threshold on the size of the clip. *)
Definition onstop (env : Env) (chunks : list Blob) (mimeType : string)
    (st : Chat) : Chat * list Call :=
  let audioBlob := new_Blob chunks mimeType in
  if (blob_size audioBlob <? 50)%N then (setIsProcessing false st, [])
  else
    let st := setIsProcessing true st in
    let st := setProcessingStatus "AI is listening..." st in
    let '(st, calls) :=
      match result ← reply env; parse result with
      | JS.Normal (trans, resp) =>
          let st := addMessage (stamp1 env) USER trans st in
          let st := addMessage (stamp2 env) TUTOR resp st in
          let '(st, played) := playResponse env resp st in
          (st, ProcessAudio audioBlob :: played)
      | JS.Throw err => (handleError (stamp1 env) err st, [ProcessAudio audioBlob])
      end in
    (setIsProcessing false st, calls).

End App4.

(** ** The reply parser: what the marker convention promises, and what
       each version computes *)

(** The text in front of the first occurrence of [sep] (all of [s] when
    there is none), and the text behind it. *)
Definition before_first (sep s : string) : string :=
  match JS.cut sep s with Some (b, _) => b | None => s end.

Definition after_first (sep s : string) : string :=
  match JS.cut sep s with Some (_, a) => a | None => EmptyString end.

(** The parser as the specification words it: a tag in front of the
    transcription is dropped, and the response is all that follows the
    first marker. *)
Definition strip_leading (tag s : string) : string :=
  match JS.strip_prefix tag s with Some r => r | None => s end.

Definition spec_parse (s : string) : string * string :=
  (JS.trim (strip_leading TRANSCRIPTION (before_first RESPONSE s)),
   JS.trim (after_first RESPONSE s)).

(** The number of messages of a role in a conversation. *)
Definition count_role (r : Role) (ms : list Message) : nat :=
  List.length (filter (fun m => msg_role m = r) ms).

(** Replies the claims are tried on. *)

Definition reply_two_markers : string := "a[RESPONSE]b[RESPONSE]c".
Definition reply_round_trip : string :=
  "[TRANSCRIPTION] hello [RESPONSE] hi there".
Definition reply_no_marker : string := "just a reply, no markers".
Definition reply_only_response : string := "[RESPONSE] only this".
Definition reply_empty_then_two : string := "[RESPONSE] a [RESPONSE] b".
Definition reply_tag_inside : string := "x [TRANSCRIPTION] y [RESPONSE] z".
Definition reply_tag_only : string := "[TRANSCRIPTION] [RESPONSE] hi".

(** A directory with one user, and stores, conversations and
    environments to run the handlers on. *)
Definition alice : StoredUser := mkStored "secret" B2 Russian.
Definition one_user : AuthState :=
  mkAuth None EmptyString (mkStorage None (Some {[ "alice" := alice ]})).
Definition fresh_store : AuthState :=
  mkAuth None EmptyString (mkStorage None None).

Definition typed_hello : Chat :=
  mkChat [] "hello" false EmptyString false.
Definition stamp_a : Stamp := mkStamp "k3x9q" 1000.
Definition stamp_b : Stamp := mkStamp "p7m2w" 1500.
Definition remote_down : Env :=
  mkEnv (JS.Throw (JS.Error "Failed to fetch")) (JS.Normal EmptyString) false
    stamp_a stamp_b.
Definition remote_answers : Env :=
  mkEnv (JS.Normal "[TRANSCRIPTION] hi [RESPONSE] hello") (JS.Normal EmptyString)
    false stamp_a stamp_b.

(** A text without white space at either end. *)
Definition trimmed (s : string) : Prop := JS.trim s = s.

(** A text made of white space only. *)
Definition blank (s : string) : Prop :=
  forall c, c ∈ list_ascii_of_string s -> JS.is_white c = true.

(** The bytes a list of chunks holds. *)
Definition total_size (chunks : list Blob) : N :=
  foldr (fun c n => (blob_size c + n)%N) 0%N chunks.

(** The message [addMessage] makes from a stamp. *)
Definition stamped (stamp : Stamp) (role : Role) (text : string) : Message :=
  mkMessage (stamp_id stamp) role text (stamp_time stamp).

(** More replies and states to try the handlers on. *)
Definition reply_plain : string := "  Well done, keep going. ".
Definition reply_padded : string := "[TRANSCRIPTION]  good morning  [RESPONSE]  Good morning!  ".

(** A conversation that kept all it had and gained at most [n]
    messages at its end. *)
Definition grows_by (n : nat) (before after : list Message) : Prop :=
  exists new, after = (before ++ new)%list /\ List.length new <= n.

Definition typed_spaces : Chat :=
  mkChat [] "   " false EmptyString false.
Definition audio_150 : list Blob := [mkBlob 100 "audio/webm"; mkBlob 50 "audio/webm"].

Definition recording_with_gaps : list Blob :=
  [mkBlob 0 "audio/webm"; mkBlob 20 "audio/webm"; mkBlob 0 "audio/webm";
   mkBlob 25 "audio/webm"].
Definition only_mp4 (type : string) : bool := String.eqb type "audio/mp4".

(** The session of the service fits the screen: nobody logged in means
    the menu mode, and outside the menu mode the chat of the service
    carries the instruction for the level and the language of the
    current user, the mode on display and the scenario of the service,
    which in custom mode is the scenario typed in the menu and is not
    blank. *)
Definition session_fits (w : App1.World) : Prop :=
  match currentUser (App1.w_auth w) with
  | None => App1.w_mode w = MENU
  | Some u =>
      App1.w_mode w = MENU
      \/ (Service1.chat (App1.w_service w)
          = Some (Service1.instructions (user_level u)
                    (goal_name (user_targetLanguage u)) (App1.w_mode w)
                    (Service1.customScenario (App1.w_service w)))
          /\ (App1.w_mode w = CUSTOM ->
              Service1.customScenario (App1.w_service w)
              = App1.w_customScenarioInput w
              /\ JS.trim (App1.w_customScenarioInput w) <> EmptyString))
  end.

(** What every step of the user keeps: the store and the component
    agree on the current user, no send or recording is left in progress,
    the accounts the directory had at the start are there unchanged, and
    the session fits the screen. *)
Definition steady (ls : LocalStorage) (w : App1.World) : Prop :=
  tutor_user (localStorage (App1.w_auth w)) = currentUser (App1.w_auth w)
  /\ isProcessing (App1.w_chat w) = false
  /\ (forall name u,
        load_users ls !! name = Some u ->
        load_users (localStorage (App1.w_auth w)) !! name = Some u)
  /\ session_fits w.

(** Alice logs in and starts an interview; then she goes back and
    starts a scenario of her own. *)
Definition store_alice : LocalStorage := mkStorage None (Some {[ "alice" := alice ]}).
Definition alice_interview : App1.World :=
  App1.step (App1.ClickInterview stamp_a)
    (App1.step (App1.SubmitAuth (mkForm "alice" "secret" A1 English false))
       (App1.mount store_alice)).
Definition alice_airport : App1.World :=
  App1.step (App1.ClickCustom stamp_b)
    (App1.step (App1.TypeScenario "At the airport")
       (App1.step App1.ClickBack alice_interview)).

(** Alice in the menu, and an update of her level. *)
Definition alice_menu : App1.World :=
  App1.step (App1.SubmitAuth (mkForm "alice" "secret" A1 English false))
    (App1.mount store_alice).
Definition to_C1 : PartialUser := mkPartial None (Some C1) None.
Definition speech_empty : Env :=
  mkEnv (JS.Normal "Hi there") (JS.Normal EmptyString) true stamp_a stamp_b.

(** ** The model at work on small inputs *)

Example split_three :
  JS.split RESPONSE "a[RESPONSE]b[RESPONSE]c" = ["a"; "b"; "c"].
Proof. reflexivity. Qed.

Example split_empty : JS.split RESPONSE EmptyString = [EmptyString].
Proof. reflexivity. Qed.

Example split_code_units : JS.split EmptyString "abc" = ["a"; "b"; "c"].
Proof. reflexivity. Qed.

Example trim_both_ends :
  JS.trim "  hi there 
 " = "hi there".
Proof. reflexivity. Qed.

Example replace_first_only :
  JS.replace TRANSCRIPTION EmptyString "x[TRANSCRIPTION]y[TRANSCRIPTION]"
  = "xy[TRANSCRIPTION]".
Proof. reflexivity. Qed.

Example strip_markers_all :
  App4.strip_markers "a[RESPONSE]b[TRANSCRIPTION]c[" = "abc[".
Proof. reflexivity. Qed.

Example inherited_name :
  get_property ∅ "toString" = Inherited /\ get_property ∅ "bob" = Undefined.
Proof. split; reflexivity. Qed.

(** The version of part_002 leaves the tag in the transcription. *)
Example part_002_keeps_tag :
  App3.parse reply_round_trip = JS.Normal ("[TRANSCRIPTION] hello", "hi there").
Proof. reflexivity. Qed.

(** The version of part_003 shows an empty transcription as it is. *)
Example part_003_empty_transcription :
  App4.parse reply_only_response = JS.Normal (EmptyString, "only this").
Proof. reflexivity. Qed.

(** Registration, then a send that the service answers. *)
Example register_bob :
  App1.handleAuth (mkForm "bob" "pw" C1 Russian true) fresh_store
  = mkAuth (Some (mkUser "bob" C1 Russian)) EmptyString
      (mkStorage (Some (mkUser "bob" C1 Russian))
         (Some {[ "bob" := mkStored "pw" C1 Russian ]})).
Proof. vm_compute; reflexivity. Qed.

Example register_inherited_name :
  App1.handleAuth (mkForm "constructor" "pw" C1 Russian true) fresh_store
  = mkAuth None "User already exists" (mkStorage None None).
Proof. vm_compute; reflexivity. Qed.

Example send_answered :
  App1.handleSendText remote_answers typed_hello
  = (mkChat [mkMessage "k3x9q" USER "hello" 1000;
             mkMessage "p7m2w" TUTOR "[TRANSCRIPTION] hi [RESPONSE] hello" 1500]
       EmptyString false "Thinking..." false,
     [SendMessage "hello"; GetSpeech "[TRANSCRIPTION] hi [RESPONSE] hello"]).
Proof. reflexivity. Qed.

(** ** Facts about the string primitives *)

Section StringFacts.

Implicit Types (sep s b a x : string) (c : ascii).

(** The loop of [split], one round at a time. *)
Lemma split_at_unfold c p s :
  JS.split_at c p s =
  match JS.cut (String c p) s with
  | Some (b, a) => b :: JS.split_at c p a
  | None => [s]
  end.
Proof.
  funelim (JS.split_at c p s).
  - rewrite E; reflexivity.
  - match goal with e : JS.cut _ _ = None |- _ => rewrite e end; reflexivity.
Qed.

Lemma split_unfold c p s :
  JS.split (String c p) s =
  match JS.cut (String c p) s with
  | Some (b, a) => b :: JS.split (String c p) a
  | None => [s]
  end.
Proof. unfold JS.split; apply split_at_unfold. Qed.

(** [split] never gives an empty array for a separator that is not empty. *)
Lemma split_first c p s :
  exists rest,
    JS.split (String c p) s =
    match JS.cut (String c p) s with Some (b, _) => b | None => s end :: rest.
Proof.
  rewrite split_unfold; destruct (JS.cut _ s) as [[b a]|]; eauto.
Qed.

Lemma includes_cut sep s :
  JS.includes sep s = true <-> exists b a, JS.cut sep s = Some (b, a).
Proof.
  unfold JS.includes, JS.indexOf; destruct (JS.cut sep s) as [[b a]|].
  - split; eauto.
  - split; [discriminate|]. intros (b & a & H); discriminate.
Qed.

Lemma not_includes_cut sep s :
  JS.includes sep s = false <-> JS.cut sep s = None.
Proof.
  unfold JS.includes, JS.indexOf; destruct (JS.cut sep s) as [[b a]|];
    split; congruence.
Qed.

(** [cut] stops at the first occurrence: no way of writing the string
    around the separator has a shorter text in front. *)
Lemma cut_first sep s b a :
  JS.cut sep s = Some (b, a) ->
  forall b' a', s = b' +:+ sep +:+ a' -> String.length b <= String.length b'.
Proof.
  revert b a; induction s as [|c s IH]; intros b a; simpl.
  - destruct (JS.strip_prefix sep EmptyString); [|discriminate].
    intros [= <- <-] b' a' _; simpl; lia.
  - destruct (JS.strip_prefix sep (String c s)) eqn:E.
    + intros [= <- <-] b' a' _; simpl; lia.
    + destruct (JS.cut sep s) as [[b0 a0]|] eqn:E'; [|discriminate].
      intros [= <- <-] [|c' b'] a' Hs.
      * simpl in Hs; rewrite Hs, JS.strip_prefix_here in E; discriminate.
      * simpl in Hs; injection Hs as -> ->.
        simpl; specialize (IH _ _ eq_refl _ _ eq_refl); lia.
Qed.

Lemma strip_prefix_app_r sep s r x :
  JS.strip_prefix sep s = Some r ->
  JS.strip_prefix sep (s +:+ x) = Some (r +:+ x).
Proof.
  intros H; apply JS.strip_prefix_app in H; subst s.
  rewrite JS.app_assoc; apply JS.strip_prefix_here.
Qed.

(** An occurrence in a string is an occurrence in every extension of it. *)
Lemma cut_app_r sep s x :
  JS.cut sep s <> None -> JS.cut sep (s +:+ x) <> None.
Proof.
  induction s as [|c s IH]; simpl.
  - destruct (JS.strip_prefix sep EmptyString) as [r|] eqn:E; [|congruence].
    intros _. apply (strip_prefix_app_r _ _ _ x) in E; simpl in E.
    destruct x; simpl; rewrite E; discriminate.
  - destruct (JS.strip_prefix sep (String c s)) as [r|] eqn:E.
    + intros _. apply (strip_prefix_app_r _ _ _ x) in E; simpl in E.
      rewrite E; discriminate.
    + destruct (JS.cut sep s) as [[b0 a0]|] eqn:E'; [|congruence].
      intros _.
      destruct (JS.strip_prefix sep (String c (s +:+ x))); [discriminate|].
      destruct (JS.cut sep (s +:+ x)) as [[b1 a1]|] eqn:E''; [discriminate|].
      exfalso; apply IH; congruence.
Qed.

Lemma includes_app_r sep s x :
  JS.includes sep (s +:+ x) = false -> JS.includes sep s = false.
Proof.
  rewrite !not_includes_cut; intros H.
  destruct (JS.cut sep s) eqn:E; [|reflexivity].
  exfalso; apply (cut_app_r sep s x); congruence.
Qed.

(** [replace] leaves alone a string that does not hold the pattern. *)
Lemma replace_absent pat rep s :
  JS.includes pat s = false -> JS.replace pat rep s = s.
Proof.
  rewrite not_includes_cut; unfold JS.replace; intros ->; reflexivity.
Qed.

(** A string that trims to nothing is white space only. *)
Lemma trimEnd_nonwhite c s :
  JS.is_white c = false -> JS.trimEnd (String c s) <> EmptyString.
Proof.
  intros H; simpl; destruct (JS.trimEnd s); [rewrite H|]; discriminate.
Qed.

Lemma trim_empty_start s : JS.trim s = EmptyString -> JS.trimStart s = EmptyString.
Proof.
  unfold JS.trim; induction s as [|c s IH]; simpl; [reflexivity|].
  destruct (JS.is_white c) eqn:W; [exact IH|].
  intros H; exfalso; revert H; apply (trimEnd_nonwhite c s W).
Qed.

Lemma white_no_cut c p s :
  JS.is_white c = false -> JS.trimStart s = EmptyString ->
  JS.cut (String c p) s = None.
Proof.
  intros W; induction s as [|d s IH]; simpl; [reflexivity|].
  destruct (JS.is_white d) eqn:Wd; [|discriminate].
  intros H; destruct (Ascii.eqb_spec c d) as [->|_]; [congruence|].
  rewrite (IH H); reflexivity.
Qed.

Lemma replace_white c p rep s :
  JS.is_white c = false -> JS.trim s = EmptyString ->
  JS.replace (String c p) rep s = s.
Proof.
  intros W H; unfold JS.replace.
  rewrite (white_no_cut c p s W (trim_empty_start s H)); reflexivity.
Qed.

End StringFacts.

Section ParserFacts.

Implicit Types (s : string).

Lemma before_after s :
  JS.includes RESPONSE s = true ->
  s = before_first RESPONSE s +:+ RESPONSE +:+ after_first RESPONSE s.
Proof.
  intros H; apply includes_cut in H as (b & a & H).
  unfold before_first, after_first; rewrite H; exact (JS.cut_app _ _ _ _ H).
Qed.

(** With the marker in the reply, [split] has at least two parts: the
    text in front of the first marker, and the text from there to the
    next marker (or to the end). *)
Lemma split_parts s :
  JS.includes RESPONSE s = true ->
  JS.at_index (JS.split RESPONSE s) 0 = Some (before_first RESPONSE s)
  /\ JS.at_index (JS.split RESPONSE s) 1
     = Some (before_first RESPONSE (after_first RESPONSE s)).
Proof.
  intros H; apply includes_cut in H as (b & a & H).
  unfold before_first, after_first, RESPONSE in *.
  rewrite split_unfold, H.
  destruct (split_first "[" "RESPONSE]" a) as (rest & ->).
  split; reflexivity.
Qed.

(** Without the marker, [split] gives the reply back as its only part. *)
Lemma split_whole s :
  JS.includes RESPONSE s = false -> JS.split RESPONSE s = [s].
Proof.
  rewrite not_includes_cut; unfold RESPONSE; intros H.
  rewrite split_unfold, H; reflexivity.
Qed.

Lemma tagged_parse s :
  JS.includes RESPONSE s = true ->
  (trans ← JS.call_on (JS.at_index (JS.split RESPONSE s) 0)
             (fun p => JS.trim (JS.replace TRANSCRIPTION EmptyString p));
   resp ← JS.call_on (JS.at_index (JS.split RESPONSE s) 1) JS.trim;
   mret (trans, resp))
  = JS.Normal
      (JS.trim (JS.replace TRANSCRIPTION EmptyString (before_first RESPONSE s)),
       JS.trim (before_first RESPONSE (after_first RESPONSE s))).
Proof.
  intros H; destruct (split_parts s H) as [-> ->]; reflexivity.
Qed.

Lemma App1_parse_vars_marker s :
  JS.includes RESPONSE s = true ->
  App1.parse_vars s
  = JS.Normal
      (JS.trim (JS.replace TRANSCRIPTION EmptyString (before_first RESPONSE s)),
       JS.trim (before_first RESPONSE (after_first RESPONSE s))).
Proof.
  intros H; unfold App1.parse_vars; cbv zeta; rewrite H.
  destruct (JS.includes TRANSCRIPTION s) eqn:HT; cbn [andb].
  - apply tagged_parse, H.
  - destruct (split_parts s H) as [-> ->]; cbn.
    rewrite (before_after s H) in HT; apply includes_app_r in HT.
    rewrite (replace_absent _ _ _ HT); reflexivity.
Qed.

Lemma App2_parse_vars_marker s :
  JS.includes RESPONSE s = true ->
  App2.parse_vars s
  = JS.Normal
      (JS.trim (JS.replace TRANSCRIPTION EmptyString (before_first RESPONSE s)),
       JS.trim (before_first RESPONSE (after_first RESPONSE s))).
Proof.
  intros H; unfold App2.parse_vars; cbv zeta; rewrite H; apply tagged_parse, H.
Qed.

Lemma App3_parse_marker s :
  JS.includes RESPONSE s = true ->
  App3.parse s
  = JS.Normal
      (JS.or_str (JS.trim (before_first RESPONSE s)) App3.no_transcription,
       JS.or_str (JS.trim (before_first RESPONSE (after_first RESPONSE s)))
         App3.no_response).
Proof.
  intros H; unfold App3.parse; cbv zeta.
  destruct (split_parts s H) as [-> ->]; reflexivity.
Qed.

Lemma App4_parse_marker s :
  JS.includes RESPONSE s = true ->
  App4.parse s
  = JS.Normal
      (JS.trim (JS.replace TRANSCRIPTION EmptyString (before_first RESPONSE s)),
       JS.trim (before_first RESPONSE (after_first RESPONSE s))).
Proof.
  intros H; unfold App4.parse; cbv zeta; rewrite H; apply tagged_parse, H.
Qed.

Lemma App1_parse_vars_no_marker s :
  JS.includes RESPONSE s = false ->
  App1.parse_vars s = JS.Normal ("Audio processed", s).
Proof.
  intros H; unfold App1.parse_vars; rewrite H, andb_false_r; reflexivity.
Qed.

Lemma App1_parse_no_marker s :
  JS.includes RESPONSE s = false ->
  App1.parse s = JS.Normal ("Audio processed", s).
Proof.
  intros H; unfold App1.parse; rewrite (App1_parse_vars_no_marker s H).
  reflexivity.
Qed.

(** In src/App.tsx a transcription that is empty once the tag is
    removed is shown as the fixed text: this covers a reply that holds
    the tag and nothing else in front of the marker. *)
Lemma App1_parse_empty_after_tag s :
  JS.includes RESPONSE s = true ->
  JS.trim (JS.replace TRANSCRIPTION EmptyString (before_first RESPONSE s))
  = EmptyString ->
  App1.parse s
  = JS.Normal (App1.no_transcription,
               JS.trim (before_first RESPONSE (after_first RESPONSE s))).
Proof.
  intros H Hb; unfold App1.parse.
  rewrite (App1_parse_vars_marker s H), Hb; reflexivity.
Qed.

End ParserFacts.

Section TagFacts.

Implicit Types (s x a b : string) (c : ascii).

(** White space in front of a text does not survive [trimStart], white
    space behind it does not survive [trimEnd]. *)
Lemma trimStart_app_empty a b :
  JS.trimStart (a +:+ b) = EmptyString ->
  JS.trimStart a = EmptyString /\ JS.trimStart b = EmptyString.
Proof.
  induction a as [|c a IH]; simpl; [auto|].
  destruct (JS.is_white c); [exact IH|discriminate].
Qed.

Lemma trimStart_skip a x :
  JS.trimStart a = EmptyString -> JS.trimStart (a +:+ x) = JS.trimStart x.
Proof.
  induction a as [|c a IH]; simpl; [reflexivity|].
  destruct (JS.is_white c); [exact IH|discriminate].
Qed.

Lemma trimEnd_white a : JS.trimStart a = EmptyString -> JS.trimEnd a = EmptyString.
Proof.
  induction a as [|c a IH]; simpl; [reflexivity|].
  destruct (JS.is_white c); [|discriminate].
  intros H; rewrite (IH H); reflexivity.
Qed.

Lemma trimEnd_skip x a :
  JS.trimStart a = EmptyString -> JS.trimEnd (x +:+ a) = JS.trimEnd x.
Proof.
  intros H; induction x as [|c x IH]; simpl; [exact (trimEnd_white a H)|].
  rewrite IH; reflexivity.
Qed.

(** A text that is empty once its tag is removed and the rest trimmed,
    and that holds the tag, trims to the tag alone. *)
Lemma tag_alone c p b :
  JS.is_white c = false ->
  JS.trimEnd (String c p) = String c p ->
  JS.includes (String c p) b = true ->
  JS.trim (JS.replace (String c p) EmptyString b) = EmptyString ->
  JS.trim b = String c p.
Proof.
  intros W Hend Hin Hempty.
  apply includes_cut in Hin as (b1 & a1 & Hcut).
  unfold JS.replace in Hempty; rewrite Hcut in Hempty; simpl in Hempty.
  apply trim_empty_start, trimStart_app_empty in Hempty as [H1 Ha].
  rewrite (JS.cut_app _ _ _ _ Hcut); unfold JS.trim.
  rewrite (trimStart_skip b1 _ H1); simpl JS.trimStart; rewrite W.
  change (String c (p +:+ a1)) with (String c p +:+ a1).
  rewrite (trimEnd_skip _ a1 Ha); exact Hend.
Qed.

(** A blank text holds no tag. *)
Lemma blank_no_tag c p b :
  JS.is_white c = false -> JS.trim b = EmptyString ->
  JS.includes (String c p) b = false.
Proof.
  intros W H; apply not_includes_cut, (white_no_cut c p b W), trim_empty_start, H.
Qed.

End TagFacts.

Section ConfiguratorFacts.

Lemma cut_here p post : JS.cut p (p +:+ post) = Some (EmptyString, post).
Proof.
  destruct (p +:+ post) eqn:E; simpl; rewrite <- E, JS.strip_prefix_here;
    reflexivity.
Qed.

Lemma includes_here p post : JS.includes p (p +:+ post) = true.
Proof. apply includes_cut; rewrite cut_here; eauto. Qed.

Lemma includes_skip p pre s :
  JS.includes p s = true -> JS.includes p (pre +:+ s) = true.
Proof.
  rewrite !includes_cut; intros (b & a & H).
  induction pre as [|c pre (b' & a' & IH)]; simpl; [eauto|].
  rewrite IH; destruct (JS.strip_prefix p (String c (pre +:+ s))); eauto.
Qed.

Lemma includes_end p : JS.includes p p = true.
Proof. rewrite <- (JS.app_nil_r p) at 2; apply includes_here. Qed.

(** The label of the language, followed by the word Tutor, in a string
    that goes on after it. *)
Lemma includes_label label tail rest :
  JS.includes (label +:+ " Tutor") ((label +:+ " Tutor" +:+ tail) +:+ rest) = true.
Proof.
  rewrite <- (JS.app_assoc label), JS.app_assoc; apply includes_here.
Qed.

End ConfiguratorFacts.

(** ** Facts about the handlers *)

(** Unfolds the state updates of a handler down to the record they build. *)
Ltac run_setters :=
  unfold App4.handleError, addMessage, setMessages, setInputText,
    setIsProcessing, setProcessingStatus, setIsPlaying;
  cbn.

Section HandlerFacts.

Implicit Types (form : AuthForm) (st : AuthState) (chat : Chat) (env : Env).

Lemma truthy_nonempty (s : string) : JS.truthy s = true <-> s <> EmptyString.
Proof. destruct s; simpl; split; congruence. Qed.

Lemma get_property_own (users : gmap string StoredUser) name u :
  users !! name = Some u -> get_property users name = Own u.
Proof. unfold get_property; intros ->; reflexivity. Qed.

Lemma password_differs_own u pw :
  password_differs (Own u) pw = true <-> stored_password u <> pw.
Proof.
  simpl; destruct (String.eqb_spec (stored_password u) pw); simpl;
    split; congruence.
Qed.

Lemma goal_or_id g d : goal_or g d = g.
Proof. destruct g; reflexivity. Qed.

Lemma count_role_app r (ms ns : list Message) :
  count_role r (ms ++ ns)%list = count_role r ms + count_role r ns.
Proof. unfold count_role; rewrite filter_app, List.length_app; reflexivity. Qed.

(** In src/App.tsx a registration leaves no error exactly when the two
    fields are filled in and the name resolves to nothing in the
    directory, own or inherited. *)
Lemma App1_registration_succeeds form st :
  isRegistering form = true ->
  authError (App1.handleAuth form st) = EmptyString
  <-> username form <> EmptyString /\ password form <> EmptyString
      /\ load_users (localStorage st) !! username form = None
      /\ username form ∉ object_prototype_names.
Proof.
  intros Hreg; unfold App1.handleAuth; cbv zeta; cbn [localStorage].
  rewrite Hreg, <- !truthy_nonempty; unfold get_property.
  destruct (JS.truthy (username form)), (JS.truthy (password form));
    cbn; try (split; [discriminate|intros (? & ? & _); congruence]).
  destruct (load_users (localStorage st) !! username form) as [u|]; cbn.
  { split; [discriminate|intros (_ & _ & ? & _); congruence]. }
  case_bool_decide as Hin; cbn.
  - split; [discriminate|intros (_ & _ & _ & ?); contradiction].
  - split; auto.
Qed.

(** The guard of [handleSendText], when it lets the text through. *)
Lemma send_guard chat :
  JS.trim (inputText chat) <> EmptyString -> isProcessing chat = false ->
  negb (JS.truthy (JS.trim (inputText chat))) || isProcessing chat = false.
Proof.
  intros Ht ->; apply truthy_nonempty in Ht; rewrite Ht; reflexivity.
Qed.

(** A send that passes the guard makes the remote call. *)
Lemma App1_send_calls env chat :
  JS.trim (inputText chat) <> EmptyString -> isProcessing chat = false ->
  exists rest,
    snd (App1.handleSendText env chat) = SendMessage (inputText chat) :: rest.
Proof.
  intros Ht Hp; unfold App1.handleSendText; rewrite (send_guard chat Ht Hp).
  cbv zeta; destruct (reply env) as [response|err]; [|simpl; eauto].
  destruct (playResponse env response _) as [st' played]; simpl; eauto.
Qed.

Lemma App4_send_calls env chat :
  JS.trim (inputText chat) <> EmptyString -> isProcessing chat = false ->
  exists rest,
    snd (App4.handleSendText env chat) = SendMessage (inputText chat) :: rest.
Proof.
  intros Ht Hp; unfold App4.handleSendText; rewrite (send_guard chat Ht Hp).
  cbv zeta; destruct (_ ← reply env; _) as [result|err]; [|simpl; eauto].
  destruct (playResponse env result _) as [st' played]; simpl; eauto.
Qed.

(** The state a failed send leaves. *)
Lemma App1_failed_send env chat err :
  JS.trim (inputText chat) <> EmptyString -> isProcessing chat = false ->
  reply env = JS.Throw err ->
  App1.handleSendText env chat
  = (mkChat
       (messages chat
        ++ [mkMessage (stamp_id (stamp1 env)) USER (inputText chat)
              (stamp_time (stamp1 env));
            mkMessage (stamp_id (stamp2 env)) TUTOR
              "Sorry, I'm having trouble connecting to my brain."
              (stamp_time (stamp2 env))])%list
       EmptyString false "Thinking..." (isPlaying chat),
     [SendMessage (inputText chat)]).
Proof.
  intros Ht Hp Hr; unfold App1.handleSendText.
  rewrite (send_guard chat Ht Hp), Hr; run_setters.
  rewrite <- app_assoc; reflexivity.
Qed.

Lemma App4_failed_send env chat err :
  JS.trim (inputText chat) <> EmptyString -> isProcessing chat = false ->
  reply env = JS.Throw err ->
  App4.handleSendText env chat
  = (mkChat
       (messages chat
        ++ [mkMessage (stamp_id (stamp1 env)) USER (inputText chat)
              (stamp_time (stamp1 env));
            mkMessage (stamp_id (stamp2 env)) TUTOR
              ("I encountered an error: "
               +:+ JS.or_str (exn_message err) (exn_String err)
               +:+ ". Please ensure you have a valid internet connection.")
              (stamp_time (stamp2 env))])%list
       EmptyString false "Thinking..." (isPlaying chat),
     [SendMessage (inputText chat)]).
Proof.
  intros Ht Hp Hr; unfold App4.handleSendText.
  rewrite (send_guard chat Ht Hp), Hr; run_setters.
  rewrite <- app_assoc; reflexivity.
Qed.

Lemma count_role_two (ms : list Message) id1 text1 t1 id2 text2 t2 :
  count_role TUTOR
    (ms ++ [mkMessage id1 USER text1 t1; mkMessage id2 TUTOR text2 t2])%list
  = S (count_role TUTOR ms).
Proof.
  rewrite count_role_app; cbn.
  repeat case_decide; try congruence; simpl; lia.
Qed.

End HandlerFacts.

(** ** Claims about the reply parser *)

(** C1, as the specification states it, fails on a reply with two
    markers: the text that follows the first marker is "b[RESPONSE]c",
    and every version of the parser gives "b" as the response.  A tag
    that does not lead the transcription is removed all the same, and
    the version of part_002 removes no tag. *)
Lemma C1_second_marker_ends_response :
  JS.includes RESPONSE reply_two_markers = true
  /\ spec_parse reply_two_markers = ("a", "b[RESPONSE]c")
  /\ App1.parse_vars reply_two_markers = JS.Normal ("a", "b")
  /\ App2.parse_vars reply_two_markers = JS.Normal ("a", "b")
  /\ App3.parse reply_two_markers = JS.Normal ("a", "b")
  /\ App1.parse_vars reply_two_markers <> JS.Normal (spec_parse reply_two_markers)
  /\ spec_parse reply_tag_inside = ("x [TRANSCRIPTION] y", "z")
  /\ App1.parse_vars reply_tag_inside = JS.Normal ("x  y", "z")
  /\ spec_parse reply_round_trip = ("hello", "hi there")
  /\ App3.parse reply_round_trip = JS.Normal ("[TRANSCRIPTION] hello", "hi there").
Proof. repeat split; vm_compute; congruence. Qed.

(** C1 (amended): for every reply that holds the marker [RESPONSE], the
    parser splits at the first occurrence.  The transcription is the
    text in front of it, with the first [TRANSCRIPTION] tag of that text
    removed, then trimmed; the response is the trimmed text between the first
    occurrence and the next one, which is all the rest when the marker
    occurs once.  The version of part_002 keeps the tag and puts a fixed
    text in the place of an empty transcription or response. *)
Theorem C1_split_at_first_marker (s : string) :
  JS.includes RESPONSE s = true ->
  let b := before_first RESPONSE s in
  let a := after_first RESPONSE s in
  let transcription := JS.trim (JS.replace TRANSCRIPTION EmptyString b) in
  let response := JS.trim (before_first RESPONSE a) in
  s = b +:+ RESPONSE +:+ a
  /\ (forall b' a', s = b' +:+ RESPONSE +:+ a' -> String.length b <= String.length b')
  /\ (JS.includes RESPONSE a = false -> before_first RESPONSE a = a)
  /\ (JS.includes RESPONSE a = true ->
      a = before_first RESPONSE a +:+ RESPONSE +:+ after_first RESPONSE a)
  /\ App1.parse_vars s = JS.Normal (transcription, response)
  /\ App2.parse_vars s = JS.Normal (transcription, response)
  /\ App3.parse s
     = JS.Normal (JS.or_str (JS.trim b) App3.no_transcription,
                  JS.or_str response App3.no_response).
Proof.
  intros H b a transcription response; subst b a transcription response.
  split; [exact (before_after s H)|].
  split.
  { apply includes_cut in H as (b & a & H).
    unfold before_first; rewrite H; exact (cut_first _ _ _ _ H). }
  split.
  { rewrite not_includes_cut; unfold before_first; intros ->; reflexivity. }
  split; [exact (before_after _)|].
  split; [exact (App1_parse_vars_marker s H)|].
  split; [exact (App2_parse_vars_marker s H)|].
  exact (App3_parse_marker s H).
Qed.

(** The round-trip reply holds the marker, and C1 (amended) gives its two
    parts. *)
Lemma C1_split_at_first_marker_witness :
  JS.includes RESPONSE reply_round_trip = true
  /\ App1.parse_vars reply_round_trip = JS.Normal ("hello", "hi there")
  /\ App2.parse_vars reply_round_trip = JS.Normal ("hello", "hi there").
Proof.
  split; [reflexivity|].
  pose proof (C1_split_at_first_marker reply_round_trip eq_refl) as H.
  cbv zeta in H; destruct H as (_ & _ & _ & _ & H1 & H2 & _).
  split; [rewrite H1|rewrite H2]; reflexivity.
Defined.

(** C2: the reply "[TRANSCRIPTION] hello [RESPONSE] hi there" parses to
    the transcription "hello" and the response "hi there". *)
Theorem C2_round_trip :
  App1.parse reply_round_trip = JS.Normal ("hello", "hi there")
  /\ App1.parse_vars reply_round_trip = JS.Normal ("hello", "hi there")
  /\ App2.parse reply_round_trip = JS.Normal ("hello", "hi there")
  /\ App4.parse reply_round_trip = JS.Normal ("hello", "hi there").
Proof. repeat split; vm_compute; reflexivity. Qed.

(** C3, as the specification states it, fails on the version of
    part_002: a reply without the marker becomes the transcription, and
    the fixed text stands for the response. *)
Lemma C3_part_002_swaps_roles :
  JS.includes RESPONSE reply_no_marker = false
  /\ App3.parse reply_no_marker
     = JS.Normal ("just a reply, no markers", "I couldn't generate a response.")
  /\ App3.parse reply_no_marker <> JS.Normal (App3.no_transcription, reply_no_marker).
Proof. repeat split; vm_compute; congruence. Qed.

(** C3 (amended): for every reply without the marker [RESPONSE], the
    parser of src/App.tsx gives the whole reply as the response and the
    fixed text "Audio processed" as the transcription; the parser of
    part_002 gives the trimmed reply as the transcription ("Unintelligible
    audio" when that is empty) and a fixed text as the response. *)
Theorem C3_no_marker (s : string) :
  JS.includes RESPONSE s = false ->
  App1.parse_vars s = JS.Normal ("Audio processed", s)
  /\ App1.parse s = JS.Normal ("Audio processed", s)
  /\ App3.parse s
     = JS.Normal (JS.or_str (JS.trim s) "Unintelligible audio",
                  "I couldn't generate a response.").
Proof.
  intros H.
  split; [exact (App1_parse_vars_no_marker s H)|].
  split; [exact (App1_parse_no_marker s H)|].
  unfold App3.parse; rewrite (split_whole s H); reflexivity.
Qed.

(** A reply without the marker, through C3 (amended). *)
Lemma C3_no_marker_witness :
  JS.includes RESPONSE reply_no_marker = false
  /\ App1.parse reply_no_marker = JS.Normal ("Audio processed", reply_no_marker).
Proof.
  split; [reflexivity|].
  exact (proj1 (proj2 (C3_no_marker reply_no_marker eq_refl))).
Defined.

(** C4, as the specification states it, fails twice.  On a reply that
    starts with the marker and holds it twice, the trimmed text that
    follows the marker is "a [RESPONSE] b", and the response is "a".  On
    a reply whose transcription is the tag alone, empty once the tag is
    removed, src/App.tsx shows its fixed text, and part_002, which
    removes no tag, shows the tag. *)
Lemma C4_second_marker_ends_response :
  JS.includes RESPONSE reply_empty_then_two = true
  /\ JS.trim (before_first RESPONSE reply_empty_then_two) = EmptyString
  /\ JS.trim (after_first RESPONSE reply_empty_then_two) = "a [RESPONSE] b"
  /\ App1.parse reply_empty_then_two = JS.Normal (App1.no_transcription, "a")
  /\ App3.parse reply_empty_then_two = JS.Normal (App3.no_transcription, "a")
  /\ App1.parse reply_empty_then_two
     <> JS.Normal (App1.no_transcription,
                   JS.trim (after_first RESPONSE reply_empty_then_two))
  /\ JS.includes RESPONSE reply_tag_only = true
  /\ fst (spec_parse reply_tag_only) = EmptyString
  /\ App1.parse reply_tag_only = JS.Normal (App1.no_transcription, "hi")
  /\ App3.parse reply_tag_only = JS.Normal ("[TRANSCRIPTION]", "hi")
  /\ App3.parse reply_tag_only <> JS.Normal (App3.no_transcription, "hi").
Proof. repeat split; vm_compute; congruence. Qed.

(** C4 (amended): for every reply that holds the marker [RESPONSE] and
    whose transcription, the text in front of the first marker with its
    first [TRANSCRIPTION] tag removed, is empty once trimmed, src/App.tsx
    (both versions) shows a fixed text, not an empty one, and the
    response is the trimmed text between the first marker and the next
    one (all the rest when there is no other).  The version of part_002
    removes no tag: it shows its fixed text when the text in front of
    the marker is blank and the tag itself when that text holds the tag;
    it puts a fixed text in the place of an empty response too. *)
Theorem C4_empty_transcription (s : string) :
  JS.includes RESPONSE s = true ->
  JS.trim (JS.replace TRANSCRIPTION EmptyString (before_first RESPONSE s))
  = EmptyString ->
  let response := JS.trim (before_first RESPONSE (after_first RESPONSE s)) in
  App1.parse s
  = JS.Normal ("I heard something but couldn't transcribe it.", response)
  /\ App2.parse s = JS.Normal ("Audio input", response)
  /\ App3.parse s
     = JS.Normal (if JS.includes TRANSCRIPTION (before_first RESPONSE s)
                  then "[TRANSCRIPTION]" else "Unintelligible audio",
                  JS.or_str response App3.no_response)
  /\ (JS.trim (before_first RESPONSE s) = EmptyString ->
      JS.includes TRANSCRIPTION (before_first RESPONSE s) = false)
  /\ (JS.includes RESPONSE (after_first RESPONSE s) = false ->
      response = JS.trim (after_first RESPONSE s)).
Proof.
  intros H Hb response; subst response.
  split; [exact (App1_parse_empty_after_tag s H Hb)|].
  split.
  { unfold App2.parse; rewrite (App2_parse_vars_marker s H), Hb; reflexivity. }
  split.
  { rewrite (App3_parse_marker s H).
    destruct (JS.includes TRANSCRIPTION (before_first RESPONSE s)) eqn:HT.
    - unfold TRANSCRIPTION in HT, Hb.
      rewrite (tag_alone "[" "TRANSCRIPTION]" _ eq_refl eq_refl HT Hb); reflexivity.
    - rewrite (replace_absent _ _ _ HT) in Hb; rewrite Hb; reflexivity. }
  split.
  { intros Hblank; exact (blank_no_tag "[" _ _ eq_refl Hblank). }
  rewrite not_includes_cut; unfold before_first at 1; intros ->; reflexivity.
Qed.

(** The reply that starts with the marker, and the reply whose
    transcription is the tag alone, through C4 (amended). *)
Lemma C4_empty_transcription_witness :
  JS.includes RESPONSE reply_only_response = true
  /\ JS.trim (JS.replace TRANSCRIPTION EmptyString
                (before_first RESPONSE reply_only_response)) = EmptyString
  /\ App1.parse reply_only_response
     = JS.Normal ("I heard something but couldn't transcribe it.", "only this")
  /\ App3.parse reply_only_response
     = JS.Normal ("Unintelligible audio", "only this")
  /\ App1.parse reply_tag_only
     = JS.Normal ("I heard something but couldn't transcribe it.", "hi")
  /\ App3.parse reply_tag_only = JS.Normal ("[TRANSCRIPTION]", "hi").
Proof.
  split; [reflexivity|]. split; [reflexivity|].
  pose proof (C4_empty_transcription reply_only_response eq_refl eq_refl) as H.
  pose proof (C4_empty_transcription reply_tag_only eq_refl eq_refl) as H'.
  cbv zeta in H, H'; destruct H as (H1 & _ & H3 & _), H' as (H1' & _ & H3' & _).
  split; [rewrite H1; reflexivity|]. split; [rewrite H3; reflexivity|].
  split; [rewrite H1'|rewrite H3']; reflexivity.
Defined.

(** C5: the parser is total.  Whatever the reply, every version returns
    a pair of texts and throws nothing, and so does [cleanResponse]. *)
Theorem C5_parser_total (s : string) :
  (exists t r, App1.parse s = JS.Normal (t, r))
  /\ (exists t r, App2.parse s = JS.Normal (t, r))
  /\ (exists t r, App3.parse s = JS.Normal (t, r))
  /\ (exists t r, App4.parse s = JS.Normal (t, r))
  /\ (exists r, App4.cleanResponse s = JS.Normal r).
Proof.
  assert (exists r, App4.cleanResponse s = JS.Normal r) as Hclean.
  { unfold App4.cleanResponse.
    destruct (JS.includes RESPONSE s) eqn:H; [|eauto].
    destruct (split_parts s H) as [_ ->]; simpl; eauto. }
  destruct (JS.includes RESPONSE s) eqn:H.
  - split; [unfold App1.parse; rewrite (App1_parse_vars_marker s H); simpl; eauto|].
    split; [unfold App2.parse; rewrite (App2_parse_vars_marker s H); simpl; eauto|].
    split; [rewrite (App3_parse_marker s H); eauto|].
    split; [rewrite (App4_parse_marker s H); eauto|exact Hclean].
  - split; [rewrite (App1_parse_no_marker s H); eauto|].
    split; [unfold App2.parse, App2.parse_vars; rewrite H; simpl; eauto|].
    split; [unfold App3.parse; simpl; eauto|].
    split; [|exact Hclean].
    destruct Hclean as (r & Hr).
    unfold App4.parse; rewrite H, Hr; simpl; eauto.
Qed.


(** C6: for each of the six levels and each target language, the
    configurator gives an instruction string that is not empty and holds
    the description of the level, taken from the table of six entries,
    and the label of the tutoring language: English for the target
    language English, Russian for any other value. *)
Theorem C6_instruction_string (level : EnglishLevel) (targetLanguage : string)
    (mode : PracticeMode) (scenario : string) :
  let label :=
    if decide (targetLanguage = "English") then "English" else "Russian" in
  let i1 := Service1.instructions level targetLanguage mode scenario in
  let i2 := Service2.systemInstruction level targetLanguage mode scenario in
  (i1 <> EmptyString
   /\ JS.includes (Service1.levelDescriptions level) i1 = true
   /\ JS.includes (label +:+ " Tutor") i1 = true
   /\ Service1.chat
        (Service1.startSession level targetLanguage mode scenario Service1.initial)
      = Some i1)
  /\ (i2 <> EmptyString
      /\ JS.includes (Service2.levelDescriptions level) i2 = true
      /\ JS.includes (label +:+ " Tutor") i2 = true
      /\ Service2.getSystemInstruction
           (Service2.startSession level targetLanguage mode scenario Service2.initial)
         = i2)
  /\ (forall g : LanguageGoal, tutorLang (goal_name g) = goal_name g).
Proof.
  intros label i1 i2.
  assert (tutorLang targetLanguage = label) as Hl.
  { unfold tutorLang, label.
    destruct (String.eqb_spec targetLanguage "English"), (decide _); congruence. }
  subst i1 i2.
  split; [|split; [|intros []; reflexivity]].
  - split; [destruct level; discriminate|].
    split; [|split; [|reflexivity]];
      unfold Service1.instructions; rewrite Hl.
    + do 5 apply includes_skip; apply includes_here.
    + apply includes_skip; rewrite <- JS.app_assoc; apply includes_label.
  - split; [destruct level; discriminate|].
    split; [|split; [|reflexivity]];
      unfold Service2.systemInstruction; rewrite Hl.
    + do 5 apply includes_skip; apply includes_here.
    + apply includes_skip; rewrite <- JS.app_assoc; apply includes_label.
Qed.

(** ** Claims about the identity store and the handlers *)

(** C7: registration under a name that the directory holds fails, and
    so does login with a wrong password for such a name; in both cases
    the directory, the record of the current user and the current user
    itself stay as they were. *)
Theorem C7_rejected_auth_changes_nothing
    (form : AuthForm) (st : AuthState) (u : StoredUser) :
  load_users (localStorage st) !! username form = Some u ->
  isRegistering form = true \/ stored_password u <> password form ->
  (localStorage (App1.handleAuth form st) = localStorage st
   /\ currentUser (App1.handleAuth form st) = currentUser st
   /\ authError (App1.handleAuth form st) <> EmptyString)
  /\ (localStorage (App4.handleAuth form st) = localStorage st
      /\ currentUser (App4.handleAuth form st) = currentUser st
      /\ authError (App4.handleAuth form st) <> EmptyString).
Proof.
  intros Hu Hcase.
  unfold App1.handleAuth, App4.handleAuth; cbv zeta; cbn [localStorage].
  destruct (negb (JS.truthy (username form)) || negb (JS.truthy (password form)));
    [repeat split; discriminate|].
  rewrite (get_property_own _ _ _ Hu); cbn [property_truthy negb orb].
  destruct (isRegistering form); [repeat split; discriminate|].
  destruct Hcase as [|Hpw]; [discriminate|].
  apply password_differs_own in Hpw; rewrite Hpw.
  repeat split; discriminate.
Qed.

(** Alice is in the directory: a second registration and a login with a
    wrong password are both turned down. *)
Lemma C7_rejected_auth_changes_nothing_witness :
  App1.handleAuth (mkForm "alice" "other" A1 English true) one_user
  = mkAuth None "User already exists" (localStorage one_user)
  /\ App1.handleAuth (mkForm "alice" "wrong" A1 English false) one_user
     = mkAuth None "Invalid username or password" (localStorage one_user)
  /\ localStorage (App4.handleAuth (mkForm "alice" "wrong" A1 English false) one_user)
     = localStorage one_user.
Proof.
  split; [vm_compute; reflexivity|].
  split; [vm_compute; reflexivity|].
  refine (proj1 (proj2
    (C7_rejected_auth_changes_nothing
       (mkForm "alice" "wrong" A1 English false) one_user alice _ _))).
  - vm_compute; reflexivity.
  - right; discriminate.
Defined.

(** C8: when the call to [sendMessage] fails during a text send, the
    send adds the message of the user and exactly one message of the
    tutor, the error notice; [isProcessing] is false in the end, and a
    later send goes through to the remote service again. *)
Theorem C8_failed_send_one_notice (env : Env) (st : Chat) (err : JS.exn) :
  JS.trim (inputText st) <> EmptyString ->
  isProcessing st = false ->
  reply env = JS.Throw err ->
  let sent :=
    mkMessage (stamp_id (stamp1 env)) USER (inputText st) (stamp_time (stamp1 env)) in
  let notice text :=
    mkMessage (stamp_id (stamp2 env)) TUTOR text (stamp_time (stamp2 env)) in
  let usable (st' : Chat) (send : Env -> Chat -> Chat * list Call) :=
    forall env' text, JS.trim text <> EmptyString ->
      exists rest, snd (send env' (setInputText text st')) = SendMessage text :: rest in
  (let st' := fst (App1.handleSendText env st) in
   messages st'
   = (messages st
      ++ [sent; notice "Sorry, I'm having trouble connecting to my brain."])%list
   /\ count_role TUTOR (messages st') = S (count_role TUTOR (messages st))
   /\ isProcessing st' = false
   /\ snd (App1.handleSendText env st) = [SendMessage (inputText st)]
   /\ usable st' App1.handleSendText)
  /\ (let st' := fst (App4.handleSendText env st) in
      messages st'
      = (messages st
         ++ [sent; notice ("I encountered an error: "
                           +:+ JS.or_str (exn_message err) (exn_String err)
                           +:+ ". Please ensure you have a valid internet connection.")])%list
      /\ count_role TUTOR (messages st') = S (count_role TUTOR (messages st))
      /\ isProcessing st' = false
      /\ snd (App4.handleSendText env st) = [SendMessage (inputText st)]
      /\ usable st' App4.handleSendText).
Proof.
  intros Ht Hp Hr sent notice usable; subst sent notice usable.
  split.
  - rewrite (App1_failed_send env st err Ht Hp Hr); cbn [fst snd messages isProcessing].
    split; [reflexivity|]. split; [apply count_role_two|].
    split; [reflexivity|]. split; [reflexivity|].
    intros env' text Htext.
    apply (App1_send_calls env' (setInputText text _) Htext); reflexivity.
  - rewrite (App4_failed_send env st err Ht Hp Hr); cbn [fst snd messages isProcessing].
    split; [reflexivity|]. split; [apply count_role_two|].
    split; [reflexivity|]. split; [reflexivity|].
    intros env' text Htext.
    apply (App4_send_calls env' (setInputText text _) Htext); reflexivity.
Qed.

(** A send of "hello" while the service is down. *)
Lemma C8_failed_send_one_notice_witness :
  messages (fst (App1.handleSendText remote_down typed_hello))
  = [mkMessage "k3x9q" USER "hello" 1000;
     mkMessage "p7m2w" TUTOR "Sorry, I'm having trouble connecting to my brain." 1500]
  /\ isProcessing (fst (App1.handleSendText remote_down typed_hello)) = false.
Proof.
  pose proof (C8_failed_send_one_notice remote_down typed_hello
                (JS.Error "Failed to fetch")) as H.
  destruct H as [(Hm & _ & Hp & _) _];
    [vm_compute; discriminate|reflexivity|reflexivity|].
  split; [exact Hm|exact Hp].
Defined.

(** C9, as the specification states it, fails on src/App.tsx: its
    handler has no threshold, and a clip of size 0 goes to
    [processAudio] and brings two messages. *)
Lemma C9_App_tsx_submits_empty_clip :
  (blob_size (new_Blob [] "audio/webm") < 50)%N
  /\ snd (App1.onstop remote_answers [] "audio/webm" typed_hello)
     = [ProcessAudio (mkBlob 0 "audio/webm"); GetSpeech "hello"]
  /\ messages (fst (App1.onstop remote_answers [] "audio/webm" typed_hello))
     = [mkMessage "k3x9q" USER "hi" 1000; mkMessage "p7m2w" TUTOR "hello" 1500].
Proof. repeat split; vm_compute; reflexivity. Qed.

(** C9 (amended): in the version of part_003, a clip smaller than 50
    bytes is dropped: [processAudio] is not called, no other remote call
    is made, and no message is added.  The handler of src/App.tsx has no
    threshold: it gives every clip to [processAudio]. *)
Theorem C9_small_clip_dropped
    (env : Env) (chunks : list Blob) (mimeType : string) (st : Chat) :
  (blob_size (new_Blob chunks mimeType) < 50)%N ->
  snd (App4.onstop env chunks mimeType st) = []
  /\ messages (fst (App4.onstop env chunks mimeType st)) = messages st
  /\ isProcessing (fst (App4.onstop env chunks mimeType st)) = false
  /\ exists rest,
       snd (App1.onstop env chunks mimeType st)
       = ProcessAudio (new_Blob chunks (JS.or_str mimeType "audio/wav")) :: rest.
Proof.
  intros Hsize; apply N.ltb_lt in Hsize.
  unfold App4.onstop; cbv zeta; rewrite Hsize; cbn.
  repeat split.
  unfold App1.onstop; cbv zeta.
  destruct (_ ← reply env; _) as [[transcription response]|err]; [|simpl; eauto].
  destruct (playResponse env response _) as [st' played]; simpl; eauto.
Qed.

(** Two chunks of 12 and 30 bytes make a clip under the threshold. *)
Lemma C9_small_clip_dropped_witness :
  (blob_size (new_Blob [mkBlob 12 "audio/webm"; mkBlob 30 "audio/webm"] "audio/webm") < 50)%N
  /\ App4.onstop remote_answers [mkBlob 12 "audio/webm"; mkBlob 30 "audio/webm"]
       "audio/webm" typed_hello
     = (typed_hello, []).
Proof.
  split; [reflexivity|].
  pose proof (C9_small_clip_dropped remote_answers
                [mkBlob 12 "audio/webm"; mkBlob 30 "audio/webm"] "audio/webm"
                typed_hello eq_refl) as (Hc & _).
  destruct (App4.onstop _ _ _ _) as [st' calls] eqn:E; simpl in Hc; subst calls.
  vm_compute in E; injection E as <-; reflexivity.
Defined.

(** C10: when the name is not in the directory and the registration
    goes through (name and password filled in, the name not one that
    every object inherits), a later login with the same name and
    password succeeds, and the current user has the level and the target
    language given at registration. *)
Theorem C10_register_then_login
    (form : AuthForm) (st : AuthState) (l : EnglishLevel) (g : LanguageGoal)
    (later : AuthState) :
  load_users (localStorage st) !! username form = None ->
  username form <> EmptyString ->
  password form <> EmptyString ->
  username form ∉ object_prototype_names ->
  isRegistering form = true ->
  let registered := mkUser (username form) (level form) (targetLanguage form) in
  let login := mkForm (username form) (password form) l g false in
  (currentUser (App1.handleAuth form st) = Some registered
   /\ (tutor_users_db (localStorage later)
       = tutor_users_db (localStorage (App1.handleAuth form st)) ->
       currentUser (App1.handleAuth login later) = Some registered
       /\ tutor_user (localStorage (App1.handleAuth login later)) = Some registered))
  /\ (currentUser (App4.handleAuth form st) = Some registered
      /\ (tutor_users_db (localStorage later)
          = tutor_users_db (localStorage (App4.handleAuth form st)) ->
          currentUser (App4.handleAuth login later) = Some registered
          /\ tutor_user (localStorage (App4.handleAuth login later)) = Some registered)).
Proof.
  intros Hnone Hname Hpw Hproto Hreg registered login; subst registered login.
  apply truthy_nonempty in Hname, Hpw.
  assert (get_property (load_users (localStorage st)) (username form) = Undefined)
    as Hget.
  { unfold get_property; rewrite Hnone, bool_decide_eq_false_2; auto. }
  assert (forall ls : LocalStorage,
    tutor_users_db ls
    = Some (<[username form :=
                mkStored (password form) (level form) (targetLanguage form)]>
              (load_users (localStorage st))) ->
    get_property (load_users ls) (username form)
    = Own (mkStored (password form) (level form) (targetLanguage form))) as Hlater.
  { intros ls Hls; apply get_property_own; unfold load_users at 1.
    rewrite Hls; simpl; apply lookup_insert_eq. }
  split.
  - unfold App1.handleAuth at 1 2; cbv zeta; cbn [localStorage].
    rewrite Hname, Hpw, Hreg, Hget; cbn.
    split; [reflexivity|]. intros Hdb.
    unfold App1.handleAuth; cbv zeta; cbn [localStorage username password isRegistering].
    rewrite Hname, Hpw, (Hlater _ Hdb); cbn.
    rewrite String.eqb_refl, goal_or_id; cbn. split; reflexivity.
  - unfold App4.handleAuth at 1 2; cbv zeta.
    rewrite Hname, Hpw, Hreg, Hget; cbn.
    split; [reflexivity|]. intros Hdb.
    unfold App4.handleAuth; cbv zeta; cbn [localStorage username password isRegistering].
    rewrite Hname, Hpw, (Hlater _ Hdb); cbn.
    rewrite String.eqb_refl; cbn. split; reflexivity.
Qed.

(** Bob registers, logs out and logs in again. *)
Lemma C10_register_then_login_witness :
  let form := mkForm "bob" "pw" C1 Russian true in
  let later := App1.handleLogout (App1.handleAuth form one_user) in
  currentUser later = None
  /\ currentUser (App1.handleAuth (mkForm "bob" "pw" A1 English false) later)
     = Some (mkUser "bob" C1 Russian).
Proof.
  intros form later; split; [reflexivity|].
  refine (proj1 (proj2 (proj1
    (C10_register_then_login form one_user A1 English later _ _ _ _ _)) _));
    try discriminate; try reflexivity.
  apply (bool_decide_eq_false_1 _); vm_compute; reflexivity.
Defined.

(** ** More facts: trimming, cleaning, recording *)

Section TrimFacts.

Implicit Types (s : string) (c : ascii).

Lemma trimEnd_cons c s :
  JS.trimEnd (String c s)
  = match JS.trimEnd s with
    | EmptyString => if JS.is_white c then EmptyString else String c EmptyString
    | r => String c r
    end.
Proof. reflexivity. Qed.

Lemma trimEnd_idem s : JS.trimEnd (JS.trimEnd s) = JS.trimEnd s.
Proof.
  induction s as [|c s IH]; [reflexivity|].
  rewrite trimEnd_cons; destruct (JS.trimEnd s) as [|d r] eqn:E.
  - destruct (JS.is_white c) eqn:W; [reflexivity|].
    simpl; rewrite W; reflexivity.
  - rewrite trimEnd_cons, IH; reflexivity.
Qed.

(** Trimming the end keeps a first code unit that is not white. *)
Lemma trimEnd_head c s :
  JS.is_white c = false -> exists r, JS.trimEnd (String c s) = String c r.
Proof.
  intros W; rewrite trimEnd_cons, W; destruct (JS.trimEnd s); eauto.
Qed.

Lemma trimStart_head s :
  JS.trimStart s = EmptyString
  \/ exists c r, JS.trimStart s = String c r /\ JS.is_white c = false.
Proof.
  induction s as [|c s IH]; simpl; [auto|].
  destruct (JS.is_white c) eqn:W; [exact IH|eauto].
Qed.

Lemma trim_idem s : JS.trim (JS.trim s) = JS.trim s.
Proof.
  unfold JS.trim; destruct (trimStart_head s) as [->|(c & r & -> & W)];
    [reflexivity|].
  destruct (trimEnd_head c r W) as (r' & E); rewrite E.
  simpl JS.trimStart; rewrite W, <- E; apply trimEnd_idem.
Qed.

Lemma blank_cons c s : blank (String c s) <-> JS.is_white c = true /\ blank s.
Proof.
  unfold blank; simpl; split.
  - intros H; split; [apply H; left|intros d Hd; apply H; right; exact Hd].
  - intros [W H] d Hd; apply elem_of_cons in Hd as [->|Hd]; auto.
Qed.

Lemma blank_trimStart s : blank s <-> JS.trimStart s = EmptyString.
Proof.
  induction s as [|c s IH]; simpl.
  - split; [reflexivity|]. intros _ c Hc; inversion Hc.
  - rewrite blank_cons; destruct (JS.is_white c); [|split; [intros [? _]|]; discriminate].
    rewrite IH; tauto.
Qed.

(** A text trims to nothing exactly when it is white space only. *)
Lemma blank_trim s : blank s <-> JS.trim s = EmptyString.
Proof.
  rewrite blank_trimStart; split.
  - unfold JS.trim; intros ->; reflexivity.
  - apply trim_empty_start.
Qed.

Lemma or_str_nonempty a b : b <> EmptyString -> JS.or_str a b <> EmptyString.
Proof. destruct a; simpl; auto; discriminate. Qed.

End TrimFacts.

Section CleanFacts.

Implicit Types (s : string).

Lemma cut_none_strip sep s : JS.cut sep s = None -> JS.strip_prefix sep s = None.
Proof.
  destruct s; simpl; destruct (JS.strip_prefix sep _); congruence.
Qed.

Lemma cut_none_tail sep c s : JS.cut sep (String c s) = None -> JS.cut sep s = None.
Proof.
  simpl; destruct (JS.strip_prefix sep (String c s)); [discriminate|].
  destruct (JS.cut sep s) as [[b a]|]; congruence.
Qed.

(** The loop of [strip_markers], one round at a time. *)
Lemma strip_markers_unfold s :
  App4.strip_markers s
  = match JS.strip_prefix TRANSCRIPTION s with
    | Some rest => App4.strip_markers rest
    | None =>
        match JS.strip_prefix RESPONSE s with
        | Some rest => App4.strip_markers rest
        | None =>
            match s with
            | EmptyString => EmptyString
            | String c s' => String c (App4.strip_markers s')
            end
        end
    end.
Proof.
  funelim (App4.strip_markers s);
    repeat match goal with
           | e : JS.strip_prefix _ _ = _ |- _ => rewrite e
           end;
    reflexivity.
Qed.

(** Where no tag occurs, nothing is removed. *)
Lemma strip_markers_clean s :
  JS.includes TRANSCRIPTION s = false -> JS.includes RESPONSE s = false ->
  App4.strip_markers s = s.
Proof.
  rewrite !not_includes_cut.
  induction s as [|c s IH]; intros HT HR; rewrite strip_markers_unfold;
    rewrite (cut_none_strip _ _ HT), (cut_none_strip _ _ HR); [reflexivity|].
  rewrite (IH (cut_none_tail _ _ _ HT) (cut_none_tail _ _ _ HR)); reflexivity.
Qed.

End CleanFacts.

Section RunFacts.

Implicit Types (env : Env) (st : Chat).

Lemma or_undef_nonempty a b : b <> EmptyString -> JS.or_undef a b <> EmptyString.
Proof. destruct a; simpl; auto using or_str_nonempty. Qed.

(** [playResponse] asks for the speech of its text, once, and touches
    nothing but [isPlaying]. *)
Lemma playResponse_frame env text st :
  snd (playResponse env text st) = [GetSpeech text]
  /\ messages (fst (playResponse env text st)) = messages st
  /\ inputText (fst (playResponse env text st)) = inputText st
  /\ isProcessing (fst (playResponse env text st)) = isProcessing st
  /\ processingStatus (fst (playResponse env text st)) = processingStatus st.
Proof.
  unfold playResponse; destruct (speech env) as [audio|e];
    [destruct (JS.truthy audio), (decodes env)|]; cbn; auto.
Qed.

Lemma App3_playResponse_frame env text st :
  snd (App3.playResponse env text st) = [GetSpeech text]
  /\ messages (fst (App3.playResponse env text st)) = messages st
  /\ inputText (fst (App3.playResponse env text st)) = inputText st
  /\ isProcessing (fst (App3.playResponse env text st)) = isProcessing st
  /\ processingStatus (fst (App3.playResponse env text st)) = processingStatus st.
Proof.
  unfold App3.playResponse; destruct (speech env) as [audio|e];
    [destruct (JS.truthy audio), (decodes env)|]; cbn; auto.
Qed.

(** An answered send of src/App.tsx. *)
Lemma App1_send_answered env st response :
  JS.trim (inputText st) <> EmptyString -> isProcessing st = false ->
  reply env = JS.Normal response ->
  messages (fst (App1.handleSendText env st))
  = (messages st ++ [stamped (stamp1 env) USER (inputText st);
                     stamped (stamp2 env) TUTOR response])%list
  /\ inputText (fst (App1.handleSendText env st)) = EmptyString
  /\ isProcessing (fst (App1.handleSendText env st)) = false
  /\ snd (App1.handleSendText env st)
     = [SendMessage (inputText st); GetSpeech response].
Proof.
  intros Ht Hp Hr; unfold App1.handleSendText.
  rewrite (send_guard st Ht Hp), Hr; cbv zeta.
  match goal with |- context [playResponse env response ?s] =>
    destruct (playResponse_frame env response s) as (Hc & Hm & Hi & _);
    destruct (playResponse env response s) as [st' played]
  end.
  cbn in *; subst played; rewrite Hm, Hi; run_setters.
  rewrite <- app_assoc; auto.
Qed.

Lemma App4_send_answered env st rawResult result :
  JS.trim (inputText st) <> EmptyString -> isProcessing st = false ->
  reply env = JS.Normal rawResult ->
  App4.cleanResponse rawResult = JS.Normal result ->
  messages (fst (App4.handleSendText env st))
  = (messages st ++ [stamped (stamp1 env) USER (inputText st);
                     stamped (stamp2 env) TUTOR result])%list
  /\ inputText (fst (App4.handleSendText env st)) = EmptyString
  /\ isProcessing (fst (App4.handleSendText env st)) = false
  /\ snd (App4.handleSendText env st)
     = [SendMessage (inputText st); GetSpeech result].
Proof.
  intros Ht Hp Hr Hc; unfold App4.handleSendText.
  rewrite (send_guard st Ht Hp), Hr; cbn [mbind completion_bind JS.bind].
  rewrite Hc; cbv zeta.
  match goal with |- context [playResponse env result ?s] =>
    destruct (playResponse_frame env result s) as (Hcalls & Hm & Hi & _);
    destruct (playResponse env result s) as [st' played]
  end.
  cbn in *; subst played; rewrite Hm, Hi; run_setters.
  rewrite <- app_assoc; auto.
Qed.

Lemma cleanResponse_total s : exists r, App4.cleanResponse s = JS.Normal r.
Proof.
  unfold App4.cleanResponse; destruct (JS.includes RESPONSE s) eqn:H; [|eauto].
  destruct (split_parts s H) as [_ ->]; simpl; eauto.
Qed.

Lemma App1_parse_total s : exists t r, App1.parse s = JS.Normal (t, r).
Proof.
  destruct (JS.includes RESPONSE s) eqn:H.
  - unfold App1.parse; rewrite (App1_parse_vars_marker s H); simpl; eauto.
  - rewrite (App1_parse_no_marker s H); eauto.
Qed.

Lemma App4_parse_total s : exists t r, App4.parse s = JS.Normal (t, r).
Proof.
  destruct (JS.includes RESPONSE s) eqn:H.
  - rewrite (App4_parse_marker s H); eauto.
  - destruct (cleanResponse_total s) as (r & Hr).
    unfold App4.parse; rewrite H, Hr; simpl; eauto.
Qed.

(** A send that the guard stops. *)
Lemma send_blocked st :
  JS.trim (inputText st) = EmptyString \/ isProcessing st = true ->
  negb (JS.truthy (JS.trim (inputText st))) || isProcessing st = true.
Proof. intros [->| ->]; [reflexivity|apply orb_true_r]. Qed.

Lemma send_guard_inv st :
  negb (JS.truthy (JS.trim (inputText st))) || isProcessing st = false ->
  JS.trim (inputText st) <> EmptyString /\ isProcessing st = false.
Proof.
  intros H; apply orb_false_elim in H as [Ht Hp]; split; [|exact Hp].
  apply truthy_nonempty; destruct (JS.truthy _); [reflexivity|discriminate].
Qed.

Lemma grows_by_refl n (ms : list Message) : grows_by n ms ms.
Proof. exists []; rewrite app_nil_r; simpl; split; [reflexivity|lia]. Qed.

Lemma grows_by_app n (ms new : list Message) :
  List.length new <= n -> grows_by n ms (ms ++ new)%list.
Proof. intros H; exists new; auto. Qed.

(** The recording handlers, case by case. *)
Lemma App1_onstop_answered env chunks mimeType st result t r :
  reply env = JS.Normal result -> App1.parse result = JS.Normal (t, r) ->
  messages (fst (App1.onstop env chunks mimeType st))
  = (messages st ++ [stamped (stamp1 env) USER t;
                     stamped (stamp2 env) TUTOR r])%list
  /\ isProcessing (fst (App1.onstop env chunks mimeType st)) = false
  /\ processingStatus (fst (App1.onstop env chunks mimeType st)) = EmptyString
  /\ snd (App1.onstop env chunks mimeType st)
     = [ProcessAudio (new_Blob chunks (JS.or_str mimeType "audio/wav"));
        GetSpeech r].
Proof.
  intros Hr Hp; unfold App1.onstop.
  rewrite Hr; cbn [mbind completion_bind JS.bind]; rewrite Hp; cbv zeta.
  match goal with |- context [playResponse env r ?s] =>
    destruct (playResponse_frame env r s) as (Hcalls & Hm & _);
    destruct (playResponse env r s) as [st' played]
  end.
  cbn in *; subst played; rewrite Hm; run_setters.
  rewrite <- app_assoc; auto.
Qed.

Lemma App1_onstop_failed env chunks mimeType st err :
  reply env = JS.Throw err ->
  messages (fst (App1.onstop env chunks mimeType st))
  = (messages st
     ++ [stamped (stamp1 env) TUTOR
           ("I couldn't hear you clearly. Error: " +:+ exn_message err)])%list
  /\ isProcessing (fst (App1.onstop env chunks mimeType st)) = false
  /\ processingStatus (fst (App1.onstop env chunks mimeType st)) = EmptyString
  /\ snd (App1.onstop env chunks mimeType st)
     = [ProcessAudio (new_Blob chunks (JS.or_str mimeType "audio/wav"))].
Proof. intros Hr; unfold App1.onstop; rewrite Hr; run_setters; auto. Qed.

Lemma App4_onstop_answered env chunks mimeType st result t r :
  (50 <= blob_size (new_Blob chunks mimeType))%N ->
  reply env = JS.Normal result -> App4.parse result = JS.Normal (t, r) ->
  messages (fst (App4.onstop env chunks mimeType st))
  = (messages st ++ [stamped (stamp1 env) USER t;
                     stamped (stamp2 env) TUTOR r])%list
  /\ isProcessing (fst (App4.onstop env chunks mimeType st)) = false
  /\ snd (App4.onstop env chunks mimeType st)
     = [ProcessAudio (new_Blob chunks mimeType); GetSpeech r].
Proof.
  intros Hs Hr Hp; apply N.ltb_ge in Hs; unfold App4.onstop; cbv zeta.
  rewrite Hs, Hr; cbn [mbind completion_bind JS.bind]; rewrite Hp.
  match goal with |- context [playResponse env r ?s] =>
    destruct (playResponse_frame env r s) as (Hcalls & Hm & _);
    destruct (playResponse env r s) as [st' played]
  end.
  cbn in *; subst played; rewrite Hm; run_setters.
  rewrite <- app_assoc; auto.
Qed.

Lemma App4_onstop_failed env chunks mimeType st err :
  (50 <= blob_size (new_Blob chunks mimeType))%N ->
  reply env = JS.Throw err ->
  messages (fst (App4.onstop env chunks mimeType st))
  = (messages st
     ++ [stamped (stamp1 env) TUTOR
           ("I encountered an error: "
            +:+ JS.or_str (exn_message err) (exn_String err)
            +:+ ". Please ensure you have a valid internet connection.")])%list
  /\ isProcessing (fst (App4.onstop env chunks mimeType st)) = false
  /\ snd (App4.onstop env chunks mimeType st)
     = [ProcessAudio (new_Blob chunks mimeType)].
Proof.
  intros Hs Hr; apply N.ltb_ge in Hs; unfold App4.onstop; cbv zeta.
  rewrite Hs, Hr; run_setters; auto.
Qed.

Lemma App3_onstop_failed env chunks st err :
  reply env = JS.Throw err ->
  messages (fst (App3.onstop env chunks st)) = messages st
  /\ isProcessing (fst (App3.onstop env chunks st)) = false
  /\ snd (App3.onstop env chunks st) = [ProcessAudio (new_Blob chunks "audio/webm")].
Proof. intros Hr; unfold App3.onstop; rewrite Hr; run_setters; auto. Qed.

End RunFacts.

Section RecorderFacts.

Lemma recorded_from (events chunks : list Blob) :
  foldl (fun chunks data => push_nonempty data chunks) chunks events
  = (chunks ++ filter (fun c => (0 < blob_size c)%N) events)%list.
Proof.
  revert chunks; induction events as [|e events IH]; intros chunks; simpl.
  - rewrite app_nil_r; reflexivity.
  - rewrite IH; unfold push_nonempty; rewrite filter_cons.
    destruct (N.ltb_spec 0 (blob_size e)); case_decide; try lia.
    + rewrite <- app_assoc; reflexivity.
    + reflexivity.
Qed.

(** The chunks kept are the events that hold data, in their order. *)
Lemma recorded_filter (events : list Blob) :
  recorded push_nonempty events = filter (fun c => (0 < blob_size c)%N) events.
Proof. unfold recorded; rewrite recorded_from; reflexivity. Qed.

Lemma total_size_filter (events : list Blob) :
  total_size (filter (fun c => (0 < blob_size c)%N) events) = total_size events.
Proof.
  induction events as [|e events IH]; [reflexivity|].
  rewrite filter_cons; case_decide; simpl; rewrite IH; lia.
Qed.

Lemma first_supported_spec (isTypeSupported : string -> bool) (types : list string) :
  (App1.first_supported isTypeSupported types = EmptyString
   /\ Forall (fun t => isTypeSupported t = false) types)
  \/ exists before after,
       types = (before ++ App1.first_supported isTypeSupported types :: after)%list
       /\ isTypeSupported (App1.first_supported isTypeSupported types) = true
       /\ Forall (fun t => isTypeSupported t = false) before.
Proof.
  induction types as [|t types IH]; simpl; [left; auto|].
  destruct (isTypeSupported t) eqn:E.
  - right; exists [], types; auto.
  - destruct IH as [[-> Hall]|(before & after & Ht & Hs & Hall)].
    + left; auto.
    + right; exists (t :: before), after; simpl; rewrite <- Ht; auto.
Qed.

End RecorderFacts.

Section StoreFacts.

Implicit Types (form : AuthForm) (st : AuthState).

(** [handleAuth] leaves the store and the current user alone, or it
    writes the same user to both; the directory then has at most one
    more entry, under the name of the form. *)
Lemma App1_handleAuth_cases form st :
  (localStorage (App1.handleAuth form st) = localStorage st
   /\ currentUser (App1.handleAuth form st) = currentUser st
   /\ authError (App1.handleAuth form st) <> EmptyString)
  \/ (exists u,
        currentUser (App1.handleAuth form st) = Some u
        /\ tutor_user (localStorage (App1.handleAuth form st)) = Some u
        /\ authError (App1.handleAuth form st) = EmptyString
        /\ user_name u = username form
        /\ (tutor_users_db (localStorage (App1.handleAuth form st))
            = tutor_users_db (localStorage st)
            \/ (load_users (localStorage st) !! username form = None
                /\ tutor_users_db (localStorage (App1.handleAuth form st))
                   = Some (<[username form :=
                               mkStored (password form) (level form) (targetLanguage form)]>
                             (load_users (localStorage st)))))).
Proof.
  unfold App1.handleAuth; cbv zeta; cbn [localStorage currentUser authError].
  destruct (negb (JS.truthy (username form)) || negb (JS.truthy (password form)));
    [left; repeat split; discriminate|].
  destruct (isRegistering form).
  - unfold get_property.
    destruct (load_users (localStorage st) !! username form) as [u|] eqn:E; cbn;
      [left; repeat split; discriminate|].
    case_bool_decide; cbn; [left; repeat split; discriminate|].
    right; eexists; repeat split; auto.
  - destruct (get_property _ _) as [u| |]; cbn;
      [|left; repeat split; discriminate|left; repeat split; discriminate].
    destruct (negb (stored_password u =? password form)); cbn;
      [left; repeat split; discriminate|].
    right; eexists; repeat split; auto.
Qed.

Lemma App4_handleAuth_cases form st :
  (localStorage (App4.handleAuth form st) = localStorage st
   /\ currentUser (App4.handleAuth form st) = currentUser st
   /\ authError (App4.handleAuth form st) <> EmptyString)
  \/ (exists u,
        currentUser (App4.handleAuth form st) = Some u
        /\ tutor_user (localStorage (App4.handleAuth form st)) = Some u
        /\ user_name u = username form
        /\ (tutor_users_db (localStorage (App4.handleAuth form st))
            = tutor_users_db (localStorage st)
            \/ (load_users (localStorage st) !! username form = None
                /\ tutor_users_db (localStorage (App4.handleAuth form st))
                   = Some (<[username form :=
                               mkStored (password form) (level form) (targetLanguage form)]>
                             (load_users (localStorage st)))))).
Proof.
  unfold App4.handleAuth; cbv zeta.
  destruct (negb (JS.truthy (username form)) || negb (JS.truthy (password form)));
    [left; repeat split; discriminate|].
  destruct (isRegistering form).
  - unfold get_property.
    destruct (load_users (localStorage st) !! username form) as [u|] eqn:E; cbn;
      [left; repeat split; discriminate|].
    case_bool_decide; cbn; [left; repeat split; discriminate|].
    right; eexists; repeat split; auto.
  - destruct (get_property _ _) as [u| |]; cbn;
      [|left; repeat split; discriminate|left; repeat split; discriminate].
    destruct (negb (stored_password u =? password form)); cbn;
      [left; repeat split; discriminate|].
    right; eexists; repeat split; auto.
Qed.

(** What the directory holds under a name after a change of the kind
    [handleAuth] makes. *)
Lemma directory_kept (ls ls' : LocalStorage) name key (v : StoredUser) :
  tutor_users_db ls' = tutor_users_db ls
  \/ (load_users ls !! key = None
      /\ tutor_users_db ls' = Some (<[key := v]> (load_users ls))) ->
  name <> key \/ is_Some (load_users ls !! name) ->
  load_users ls' !! name = load_users ls !! name.
Proof.
  intros [E|[Hnone E]] Hname; unfold load_users at 1; rewrite E;
    [reflexivity|].
  simpl; apply lookup_insert_ne.
  destruct Hname as [?|[u Hu]]; [auto|]. intros ->; unfold load_users in *.
  congruence.
Qed.

End StoreFacts.

Section WorldFacts.

Implicit Types (w : App1.World) (ls : LocalStorage).

Lemma App1_send_finishes env st :
  isProcessing st = false -> isProcessing (fst (App1.handleSendText env st)) = false.
Proof.
  intros Hp.
  destruct (negb (JS.truthy (JS.trim (inputText st))) || isProcessing st) eqn:Hg.
  - unfold App1.handleSendText; rewrite Hg; exact Hp.
  - apply send_guard_inv in Hg as [Ht _].
    destruct (reply env) as [response|err] eqn:Hr.
    + apply (App1_send_answered env st response Ht Hp Hr).
    + rewrite (App1_failed_send env st err Ht Hp Hr); reflexivity.
Qed.

Lemma App1_onstop_finishes env chunks mimeType st :
  isProcessing (fst (App1.onstop env chunks mimeType st)) = false.
Proof.
  destruct (reply env) as [result|err] eqn:Hr.
  - destruct (App1_parse_total result) as (t & r & Hp).
    apply (App1_onstop_answered env chunks mimeType st result t r Hr Hp).
  - apply (App1_onstop_failed env chunks mimeType st err Hr).
Qed.

(** On the screens that need a user, there is one. *)
Lemma screen_user w :
  App1.screen w <> App1.AuthScreen -> exists u, currentUser (App1.w_auth w) = Some u.
Proof.
  unfold App1.screen; destruct (currentUser (App1.w_auth w)); eauto; congruence.
Qed.

Lemma enabled_screen e w :
  App1.enabled e w = true ->
  match e with
  | App1.SubmitAuth _ => currentUser (App1.w_auth w) = None
  | App1.ClickLogout | App1.ClickConversation _ | App1.ClickInterview _
  | App1.TypeScenario _ =>
      App1.w_mode w = MENU /\ exists u, currentUser (App1.w_auth w) = Some u
  | App1.ClickCustom _ =>
      App1.w_mode w = MENU /\ (exists u, currentUser (App1.w_auth w) = Some u)
      /\ JS.trim (App1.w_customScenarioInput w) <> EmptyString
  | _ => App1.w_mode w <> MENU /\ exists u, currentUser (App1.w_auth w) = Some u
  end.
Proof.
  unfold App1.enabled, App1.screen.
  destruct e, (currentUser (App1.w_auth w)) as [u|], (App1.w_mode w);
    try discriminate; intros H; repeat split; eauto; try discriminate.
  all: apply truthy_nonempty; exact H.
Qed.

Lemma steady_mount ls : steady ls (App1.mount ls).
Proof.
  unfold steady, session_fits; cbn; repeat split; auto.
  destruct (tutor_user ls); auto.
Qed.

Lemma steady_startPractice ls w stamp selectedMode scenario u :
  steady ls w -> currentUser (App1.w_auth w) = Some u ->
  (selectedMode = CUSTOM ->
   scenario = App1.w_customScenarioInput w
   /\ JS.trim (App1.w_customScenarioInput w) <> EmptyString) ->
  steady ls (App1.startPractice stamp selectedMode scenario w).
Proof.
  intros (Hsync & Hproc & Hdir & _) Hu Hcustom.
  unfold steady, session_fits, App1.startPractice; rewrite Hu; cbn.
  rewrite Hu; repeat split; auto; congruence.
Qed.

Lemma steady_step ls w e :
  steady ls w -> App1.enabled e w = true -> steady ls (App1.step e w).
Proof.
  intros Hst He; pose proof (enabled_screen e w He) as Hscr.
  pose proof Hst as (Hsync & Hproc & Hdir & Hfit).
  destruct e; cbn [App1.step].
  - (* SubmitAuth *)
    unfold session_fits in Hfit; rewrite Hscr in Hfit.
    unfold steady, session_fits, App1.with_auth; cbn.
    destruct (App1_handleAuth_cases form (App1.w_auth w))
      as [(Hls & Hcu & _)|(u & Hcu & Htu & _ & _ & Hdb)].
    + rewrite Hls, Hcu, Hscr; repeat split; auto; try congruence.
    + rewrite Hcu, Htu; repeat split; auto; try congruence.
      intros name v Hv; rewrite (directory_kept _ _ name _ _ Hdb); auto.
      right; rewrite (Hdir _ _ Hv); eauto.
  - (* ClickLogout *)
    unfold steady, session_fits, App1.logout, App1.handleLogout; cbn.
    repeat split; auto; try congruence.
  - destruct Hscr as (_ & u & Hu).
    apply (steady_startPractice ls w stamp CONVERSATION EmptyString u Hst Hu).
    discriminate.
  - destruct Hscr as (_ & u & Hu).
    apply (steady_startPractice ls w stamp INTERVIEW EmptyString u Hst Hu).
    discriminate.
  - (* TypeScenario *)
    destruct Hscr as (Hm & u & Hu).
    unfold steady, session_fits; cbn; rewrite Hu; repeat split; auto; try congruence.
  - destruct Hscr as (_ & (u & Hu) & Hs).
    apply (steady_startPractice ls w stamp CUSTOM _ u Hst Hu); auto.
  - (* ClickBack *)
    unfold steady, session_fits; cbn.
    destruct (currentUser (App1.w_auth w)); repeat split; auto; try congruence.
  - (* ClickTrash *)
    unfold steady, session_fits, App1.with_chat in *; cbn; repeat split; auto; try congruence.
  - (* TypeText *)
    unfold steady, session_fits, App1.with_chat in *; cbn; repeat split; auto; try congruence.
  - (* SendText *)
    unfold steady, session_fits, App1.with_chat in *; cbn; repeat split; auto; try congruence.
    apply App1_send_finishes, Hproc.
  - (* ReleaseMic *)
    unfold steady, session_fits, App1.with_chat in *; cbn; repeat split; auto; try congruence.
    apply App1_onstop_finishes.
Qed.

Lemma reachable_steady ls w : App1.reachable ls w -> steady ls w.
Proof.
  induction 1 as [|w e _ IH He]; [apply steady_mount|].
  exact (steady_step ls w e IH He).
Qed.

End WorldFacts.

Section MoreConfiguratorFacts.

Lemma includes_app_l p s x : JS.includes p s = true -> JS.includes p (s +:+ x) = true.
Proof.
  intros H; apply includes_cut in H as (b & a & H).
  destruct (JS.cut p (s +:+ x)) as [[b' a']|] eqn:E; [apply includes_cut; eauto|].
  exfalso; apply (cut_app_r p s x); congruence.
Qed.

(** The clause of the mode stands in the instruction, in the three
    versions of the service that have one. *)
Lemma Service1_mode_clause level targetLanguage mode scenario :
  JS.includes (modeInstruction mode scenario)
    (Service1.instructions level targetLanguage mode scenario) = true.
Proof.
  unfold Service1.instructions; do 7 apply includes_skip; apply includes_here.
Qed.

Lemma Service2_mode_clause level targetLanguage mode scenario :
  JS.includes (modeInstruction mode scenario)
    (Service2.systemInstruction level targetLanguage mode scenario) = true.
Proof.
  unfold Service2.systemInstruction; do 7 apply includes_skip; apply includes_here.
Qed.

Lemma Service3_mode_clause level targetLanguage mode scenario :
  JS.includes (Service3.modeInstruction mode scenario)
    (Service3.systemInstruction level targetLanguage mode scenario) = true.
Proof.
  unfold Service3.systemInstruction; do 7 apply includes_skip; apply includes_here.
Qed.

Lemma includes_trans p q s :
  JS.includes p q = true -> JS.includes q s = true -> JS.includes p s = true.
Proof.
  intros Hp Hq; apply includes_cut in Hq as (b & a & Hq).
  rewrite (JS.cut_app _ _ _ _ Hq).
  apply includes_skip, includes_app_l, Hp.
Qed.

End MoreConfiguratorFacts.

Section MimeFacts.

(** The text in front of the first separator holds no separator. *)
Lemma before_first_clean sep s :
  sep <> EmptyString -> JS.includes sep (before_first sep s) = false.
Proof.
  intros Hsep; unfold before_first.
  destruct (JS.cut sep s) as [[b a]|] eqn:E; [|apply not_includes_cut, E].
  apply not_includes_cut.
  destruct (JS.cut sep b) as [[b1 a1]|] eqn:Eb; [exfalso|reflexivity].
  pose proof (JS.cut_app _ _ _ _ Eb) as Hb.
  pose proof (JS.cut_app _ _ _ _ E) as Hs.
  assert (s = b1 +:+ sep +:+ (a1 +:+ sep +:+ a)) as Hs'.
  { rewrite Hs at 1; rewrite Hb at 1; rewrite !JS.app_assoc; reflexivity. }
  pose proof (cut_first _ _ _ _ E _ _ Hs') as Hle.
  rewrite Hb in Hle; rewrite !JS.length_app in Hle.
  destruct sep; [congruence|simpl in Hle; lia].
Qed.

Lemma split_head c p s :
  JS.at_index (JS.split (String c p) s) 0 = Some (before_first (String c p) s).
Proof.
  destruct (split_first c p s) as (rest & ->); reflexivity.
Qed.

End MimeFacts.

Section ReachFacts.

Lemma alice_interview_reachable : App1.reachable store_alice alice_interview.
Proof. repeat (apply App1.reach_step; [|reflexivity]); apply App1.reach_mount. Qed.

Lemma alice_airport_reachable : App1.reachable store_alice alice_airport.
Proof.
  do 3 (apply App1.reach_step; [|reflexivity]); apply alice_interview_reachable.
Qed.

End ReachFacts.

Section SessionFacts.

Lemma Service1_level_clause level targetLanguage mode scenario :
  JS.includes (Service1.levelDescriptions level)
    (Service1.instructions level targetLanguage mode scenario) = true.
Proof.
  unfold Service1.instructions; do 5 apply includes_skip; apply includes_here.
Qed.

Lemma Service1_label_clause level (g : LanguageGoal) mode scenario :
  JS.includes (goal_name g +:+ " Tutor")
    (Service1.instructions level (goal_name g) mode scenario) = true.
Proof.
  unfold Service1.instructions.
  replace (tutorLang (goal_name g)) with (goal_name g) by (destruct g; reflexivity).
  apply includes_skip; rewrite <- JS.app_assoc; apply includes_label.
Qed.

Lemma includes_literal_tail p pre tail :
  JS.includes p tail = true -> JS.includes p (pre +:+ tail) = true.
Proof. apply includes_skip. Qed.

End SessionFacts.

(** ** Further properties of the parser and of [cleanResponse] *)

(** X1: whatever the reply, the message of the user that src/App.tsx
    (both versions) and part_002 add after a recording is never empty,
    and in part_002 the message of the tutor is never empty either. *)
Theorem X1_shown_transcription_never_empty (s : string) :
  (exists t r, App1.parse s = JS.Normal (t, r) /\ t <> EmptyString)
  /\ (exists t r, App2.parse s = JS.Normal (t, r) /\ t <> EmptyString)
  /\ (exists t r,
        App3.parse s = JS.Normal (t, r) /\ t <> EmptyString /\ r <> EmptyString).
Proof.
  split; [|split].
  - destruct (JS.includes RESPONSE s) eqn:H.
    + unfold App1.parse; rewrite (App1_parse_vars_marker s H); cbn.
      do 2 eexists; split; [reflexivity|]. apply or_str_nonempty; discriminate.
    + rewrite (App1_parse_no_marker s H); do 2 eexists; split; [reflexivity|].
      discriminate.
  - unfold App2.parse; destruct (JS.includes RESPONSE s) eqn:H.
    + rewrite (App2_parse_vars_marker s H); cbn.
      do 2 eexists; split; [reflexivity|]. apply or_str_nonempty; discriminate.
    + unfold App2.parse_vars; rewrite H; cbn.
      do 2 eexists; split; [reflexivity|]. apply or_str_nonempty; discriminate.
  - unfold App3.parse; cbv zeta; do 2 eexists; split; [reflexivity|].
    split; apply or_undef_nonempty; discriminate.
Qed.

(** X2: on a reply that holds the marker, the parsers of src/App.tsx
    (both versions) and of part_003 give the same two texts, and neither
    text starts or ends with white space. *)
Theorem X2_marker_versions_agree_trimmed (s : string) :
  JS.includes RESPONSE s = true ->
  exists t r,
    trimmed t /\ trimmed r
    /\ App1.parse_vars s = JS.Normal (t, r)
    /\ App2.parse_vars s = JS.Normal (t, r)
    /\ App4.parse s = JS.Normal (t, r).
Proof.
  intros H; do 2 eexists.
  split; [|split; [|split; [exact (App1_parse_vars_marker s H)|
                     split; [exact (App2_parse_vars_marker s H)|
                             exact (App4_parse_marker s H)]]]];
    apply trim_idem.
Qed.

(** A reply padded with spaces around both texts. *)
Lemma X2_marker_versions_agree_trimmed_witness :
  JS.includes RESPONSE reply_padded = true
  /\ exists t r,
       trimmed t /\ trimmed r
       /\ App1.parse_vars reply_padded = JS.Normal (t, r)
       /\ App2.parse_vars reply_padded = JS.Normal (t, r)
       /\ App4.parse reply_padded = JS.Normal (t, r).
Proof.
  split; [reflexivity|].
  exact (X2_marker_versions_agree_trimmed reply_padded eq_refl).
Defined.

(** X3: a text that holds neither tag goes through [cleanResponse] of
    part_003 with nothing removed but the white space at its ends; as
    the reply to a recording it becomes the message of the tutor next to
    the fixed transcription "Audio message". *)
Theorem X3_cleanResponse_keeps_clean_text (s : string) :
  JS.includes TRANSCRIPTION s = false ->
  JS.includes RESPONSE s = false ->
  App4.cleanResponse s = JS.Normal (JS.trim s)
  /\ App4.parse s = JS.Normal ("Audio message", JS.trim s).
Proof.
  intros HT HR.
  assert (App4.cleanResponse s = JS.Normal (JS.trim s)) as Hc.
  { unfold App4.cleanResponse; rewrite HR, (strip_markers_clean s HT HR).
    reflexivity. }
  split; [exact Hc|].
  unfold App4.parse; rewrite HR, Hc; reflexivity.
Qed.

(** A plain sentence with a space at each end. *)
Lemma X3_cleanResponse_keeps_clean_text_witness :
  JS.includes TRANSCRIPTION reply_plain = false
  /\ JS.includes RESPONSE reply_plain = false
  /\ App4.cleanResponse reply_plain = JS.Normal "Well done, keep going.".
Proof.
  split; [reflexivity|]. split; [reflexivity|].
  exact (proj1 (X3_cleanResponse_keeps_clean_text reply_plain eq_refl eq_refl)).
Defined.

(** ** Further properties of the send and recording handlers *)

(** X4: a text send that the service answers adds the text as typed
    and the answer, clears the input, ends with [isProcessing] down, and
    asks for the speech of exactly the text it shows: the answer itself
    in src/App.tsx, the answer through [cleanResponse] in part_003. *)
Theorem X4_answered_send (env : Env) (st : Chat) (response : string) :
  JS.trim (inputText st) <> EmptyString ->
  isProcessing st = false ->
  reply env = JS.Normal response ->
  (messages (fst (App1.handleSendText env st))
   = (messages st ++ [stamped (stamp1 env) USER (inputText st);
                      stamped (stamp2 env) TUTOR response])%list
   /\ inputText (fst (App1.handleSendText env st)) = EmptyString
   /\ isProcessing (fst (App1.handleSendText env st)) = false
   /\ snd (App1.handleSendText env st)
      = [SendMessage (inputText st); GetSpeech response])
  /\ exists result,
       App4.cleanResponse response = JS.Normal result
       /\ messages (fst (App4.handleSendText env st))
          = (messages st ++ [stamped (stamp1 env) USER (inputText st);
                             stamped (stamp2 env) TUTOR result])%list
       /\ inputText (fst (App4.handleSendText env st)) = EmptyString
       /\ isProcessing (fst (App4.handleSendText env st)) = false
       /\ snd (App4.handleSendText env st)
          = [SendMessage (inputText st); GetSpeech result].
Proof.
  intros Ht Hp Hr; split; [exact (App1_send_answered env st response Ht Hp Hr)|].
  destruct (cleanResponse_total response) as (result & Hc).
  exists result; split; [exact Hc|].
  exact (App4_send_answered env st response result Ht Hp Hr Hc).
Qed.

(** The service answers "hello" typed in an empty conversation. *)
Lemma X4_answered_send_witness :
  snd (App1.handleSendText remote_answers typed_hello)
  = [SendMessage "hello"; GetSpeech "[TRANSCRIPTION] hi [RESPONSE] hello"]
  /\ exists result,
       App4.cleanResponse "[TRANSCRIPTION] hi [RESPONSE] hello" = JS.Normal result
       /\ snd (App4.handleSendText remote_answers typed_hello)
          = [SendMessage "hello"; GetSpeech result].
Proof.
  destruct (X4_answered_send remote_answers typed_hello
              "[TRANSCRIPTION] hi [RESPONSE] hello")
    as [(_ & _ & _ & H1) (result & Hc & _ & _ & _ & H4)];
    [vm_compute; discriminate|reflexivity|reflexivity|].
  split; [exact H1|]. exists result; split; [exact Hc|exact H4].
Defined.

(** X5: an input of white space only, or a send while another is in
    progress, goes nowhere: no message is added, no remote call is made
    and the state stays as it is, in src/App.tsx, part_002 and part_003. *)
Theorem X5_blank_or_busy_send_ignored (env : Env) (st : Chat) :
  blank (inputText st) \/ isProcessing st = true ->
  App1.handleSendText env st = (st, [])
  /\ App3.handleSendText env st = (st, [])
  /\ App4.handleSendText env st = (st, []).
Proof.
  intros H.
  assert (negb (JS.truthy (JS.trim (inputText st))) || isProcessing st = true) as Hg.
  { apply send_blocked; destruct H as [H|H]; [left; apply blank_trim, H|right; exact H]. }
  unfold App1.handleSendText, App3.handleSendText, App4.handleSendText.
  rewrite Hg; auto.
Qed.

(** Three spaces in the input. *)
Lemma X5_blank_or_busy_send_ignored_witness :
  blank (inputText typed_spaces)
  /\ App1.handleSendText remote_answers typed_spaces = (typed_spaces, []).
Proof.
  assert (blank (inputText typed_spaces)) as Hb.
  { apply blank_trim; reflexivity. }
  split; [exact Hb|].
  exact (proj1 (X5_blank_or_busy_send_ignored remote_answers typed_spaces (or_introl Hb))).
Defined.

(** X6: when [processAudio] fails, src/App.tsx adds one message of the
    tutor that carries the message of the error, and no message of the
    user; part_003 does the same through [handleError] for a clip of 50
    bytes or more; part_002 adds nothing at all.  Each of them made the
    one call and ends with [isProcessing] down. *)
Theorem X6_failed_recording
    (env : Env) (chunks : list Blob) (mimeType : string) (st : Chat) (err : JS.exn) :
  reply env = JS.Throw err ->
  (messages (fst (App1.onstop env chunks mimeType st))
   = (messages st
      ++ [stamped (stamp1 env) TUTOR
            ("I couldn't hear you clearly. Error: " +:+ exn_message err)])%list
   /\ isProcessing (fst (App1.onstop env chunks mimeType st)) = false
   /\ processingStatus (fst (App1.onstop env chunks mimeType st)) = EmptyString
   /\ snd (App1.onstop env chunks mimeType st)
      = [ProcessAudio (new_Blob chunks (JS.or_str mimeType "audio/wav"))])
  /\ (messages (fst (App3.onstop env chunks st)) = messages st
      /\ isProcessing (fst (App3.onstop env chunks st)) = false
      /\ snd (App3.onstop env chunks st)
         = [ProcessAudio (new_Blob chunks "audio/webm")])
  /\ ((blob_size (new_Blob chunks mimeType) <? 50)%N = false ->
      messages (fst (App4.onstop env chunks mimeType st))
      = (messages st
         ++ [stamped (stamp1 env) TUTOR
               ("I encountered an error: "
                +:+ JS.or_str (exn_message err) (exn_String err)
                +:+ ". Please ensure you have a valid internet connection.")])%list
      /\ isProcessing (fst (App4.onstop env chunks mimeType st)) = false
      /\ snd (App4.onstop env chunks mimeType st)
         = [ProcessAudio (new_Blob chunks mimeType)]).
Proof.
  intros Hr.
  split; [exact (App1_onstop_failed env chunks mimeType st err Hr)|].
  split; [exact (App3_onstop_failed env chunks st err Hr)|].
  intros Hs; apply N.ltb_ge in Hs.
  exact (App4_onstop_failed env chunks mimeType st err Hs Hr).
Qed.

(** A clip of 150 bytes while the service is down. *)
Lemma X6_failed_recording_witness :
  messages (fst (App1.onstop remote_down audio_150 "audio/webm" typed_hello))
  = [mkMessage "k3x9q" TUTOR "I couldn't hear you clearly. Error: Failed to fetch" 1000]
  /\ messages (fst (App3.onstop remote_down audio_150 typed_hello)) = []
  /\ messages (fst (App4.onstop remote_down audio_150 "audio/webm" typed_hello))
     = [mkMessage "k3x9q" TUTOR
          "I encountered an error: Failed to fetch. Please ensure you have a valid internet connection."
          1000].
Proof.
  destruct (X6_failed_recording remote_down audio_150 "audio/webm" typed_hello
              (JS.Error "Failed to fetch") eq_refl)
    as ((H1 & _) & (H3 & _) & H4).
  destruct (H4 eq_refl) as (H4' & _).
  split; [exact H1|]. split; [exact H3|exact H4'].
Defined.

(** X7: when [processAudio] answers, the handler adds the two texts of
    the parser, first the one of the user, then the one of the tutor,
    submits the clip once (all chunks, under the type of the recording)
    and asks for the speech of the text of the tutor; part_003 does so
    for a clip of 50 bytes or more. *)
Theorem X7_answered_recording
    (env : Env) (chunks : list Blob) (mimeType : string) (st : Chat) (result : string) :
  reply env = JS.Normal result ->
  (exists t r,
     App1.parse result = JS.Normal (t, r)
     /\ messages (fst (App1.onstop env chunks mimeType st))
        = (messages st ++ [stamped (stamp1 env) USER t;
                           stamped (stamp2 env) TUTOR r])%list
     /\ isProcessing (fst (App1.onstop env chunks mimeType st)) = false
     /\ snd (App1.onstop env chunks mimeType st)
        = [ProcessAudio (new_Blob chunks (JS.or_str mimeType "audio/wav"));
           GetSpeech r])
  /\ ((blob_size (new_Blob chunks mimeType) <? 50)%N = false ->
      exists t r,
        App4.parse result = JS.Normal (t, r)
        /\ messages (fst (App4.onstop env chunks mimeType st))
           = (messages st ++ [stamped (stamp1 env) USER t;
                              stamped (stamp2 env) TUTOR r])%list
        /\ isProcessing (fst (App4.onstop env chunks mimeType st)) = false
        /\ snd (App4.onstop env chunks mimeType st)
           = [ProcessAudio (new_Blob chunks mimeType); GetSpeech r]).
Proof.
  intros Hr; split.
  - destruct (App1_parse_total result) as (t & r & Hp).
    exists t, r; split; [exact Hp|].
    destruct (App1_onstop_answered env chunks mimeType st result t r Hr Hp)
      as (Hm & Hi & _ & Hc); auto.
  - intros Hs; apply N.ltb_ge in Hs.
    destruct (App4_parse_total result) as (t & r & Hp).
    exists t, r; split; [exact Hp|].
    exact (App4_onstop_answered env chunks mimeType st result t r Hs Hr Hp).
Qed.

(** A clip of 150 bytes that the service transcribes and answers. *)
Lemma X7_answered_recording_witness :
  exists t r,
    App4.parse "[TRANSCRIPTION] hi [RESPONSE] hello" = JS.Normal (t, r)
    /\ snd (App4.onstop remote_answers audio_150 "audio/webm" typed_hello)
       = [ProcessAudio (mkBlob 150 "audio/webm"); GetSpeech r].
Proof.
  destruct (X7_answered_recording remote_answers audio_150 "audio/webm" typed_hello
              "[TRANSCRIPTION] hi [RESPONSE] hello" eq_refl) as (_ & H4).
  destruct (H4 eq_refl) as (t & r & Hp & _ & _ & Hc).
  exists t, r; split; [exact Hp|exact Hc].
Defined.

(** X8: for every way the awaited remote calls settle, by a result or
    by an exception, the run of a send or of a recording that follows
    keeps every message the conversation had, adds at most two at its
    end, and ends with [isProcessing] down: a send either was stopped
    by its guard and changed nothing, or ends with the flag down, and a
    recording ends with the flag down.  [Env] holds settled calls only:
    a call that never settles, for which the source sets no time limit,
    is outside this statement. *)
Theorem X8_handlers_append_and_finish
    (env : Env) (chunks : list Blob) (mimeType : string) (st : Chat) :
  (grows_by 2 (messages st) (messages (fst (App1.handleSendText env st)))
   /\ (App1.handleSendText env st = (st, [])
       \/ isProcessing (fst (App1.handleSendText env st)) = false))
  /\ (grows_by 2 (messages st) (messages (fst (App4.handleSendText env st)))
      /\ (App4.handleSendText env st = (st, [])
          \/ isProcessing (fst (App4.handleSendText env st)) = false))
  /\ (grows_by 2 (messages st) (messages (fst (App1.onstop env chunks mimeType st)))
      /\ isProcessing (fst (App1.onstop env chunks mimeType st)) = false)
  /\ (grows_by 2 (messages st) (messages (fst (App4.onstop env chunks mimeType st)))
      /\ isProcessing (fst (App4.onstop env chunks mimeType st)) = false).
Proof.
  split; [|split; [|split]].
  - destruct (negb (JS.truthy (JS.trim (inputText st))) || isProcessing st) eqn:Hg.
    + assert (App1.handleSendText env st = (st, [])) as ->
        by (unfold App1.handleSendText; rewrite Hg; reflexivity).
      split; [apply grows_by_refl|left; reflexivity].
    + apply send_guard_inv in Hg as [Ht Hp].
      destruct (reply env) as [response|err] eqn:Hr.
      * destruct (App1_send_answered env st response Ht Hp Hr) as (-> & _ & -> & _).
        split; [apply grows_by_app; simpl; lia|right; reflexivity].
      * rewrite (App1_failed_send env st err Ht Hp Hr); cbn [fst messages isProcessing].
        split; [apply grows_by_app; simpl; lia|right; reflexivity].
  - destruct (negb (JS.truthy (JS.trim (inputText st))) || isProcessing st) eqn:Hg.
    + assert (App4.handleSendText env st = (st, [])) as ->
        by (unfold App4.handleSendText; rewrite Hg; reflexivity).
      split; [apply grows_by_refl|left; reflexivity].
    + apply send_guard_inv in Hg as [Ht Hp].
      destruct (reply env) as [response|err] eqn:Hr.
      * destruct (cleanResponse_total response) as (result & Hc).
        destruct (App4_send_answered env st response result Ht Hp Hr Hc)
          as (-> & _ & -> & _).
        split; [apply grows_by_app; simpl; lia|right; reflexivity].
      * rewrite (App4_failed_send env st err Ht Hp Hr); cbn [fst messages isProcessing].
        split; [apply grows_by_app; simpl; lia|right; reflexivity].
  - destruct (reply env) as [result|err] eqn:Hr.
    + destruct (App1_parse_total result) as (t & r & Hp).
      destruct (App1_onstop_answered env chunks mimeType st result t r Hr Hp)
        as (-> & -> & _).
      split; [apply grows_by_app; simpl; lia|reflexivity].
    + destruct (App1_onstop_failed env chunks mimeType st err Hr) as (-> & -> & _).
      split; [apply grows_by_app; simpl; lia|reflexivity].
  - destruct (blob_size (new_Blob chunks mimeType) <? 50)%N eqn:Hs.
    + unfold App4.onstop; cbv zeta; rewrite Hs; cbn.
      split; [apply grows_by_refl|reflexivity].
    + apply N.ltb_ge in Hs; destruct (reply env) as [result|err] eqn:Hr.
      * destruct (App4_parse_total result) as (t & r & Hp).
        destruct (App4_onstop_answered env chunks mimeType st result t r Hs Hr Hp)
          as (-> & -> & _).
        split; [apply grows_by_app; simpl; lia|reflexivity].
      * destruct (App4_onstop_failed env chunks mimeType st err Hs Hr) as (-> & -> & _).
        split; [apply grows_by_app; simpl; lia|reflexivity].
Qed.

(** ** Further properties of the recorder and of the identity store *)

(** X9: the handler of [dataavailable] drops the events without data
    and keeps the others in their order, so every chunk kept holds at
    least one byte and the clip built from the chunks has the size of
    all the data that arrived. *)
Theorem X9_recorded_chunks (events : list Blob) (type : string) :
  recorded push_nonempty events = filter (fun c => (0 < blob_size c)%N) events
  /\ Forall (fun c => (0 < blob_size c)%N) (recorded push_nonempty events)
  /\ blob_size (new_Blob (recorded push_nonempty events) type) = total_size events.
Proof.
  rewrite recorded_filter; split; [reflexivity|]. split.
  - apply Forall_forall; intros c Hc; apply list_elem_of_filter in Hc as [Hc _].
    exact Hc.
  - exact (total_size_filter events).
Qed.

(** X10: [getSupportedMimeType] gives the first of the four types that
    the recorder supports, all types listed before it being unsupported,
    and the empty string when none is supported; the type of the clip
    that [onstop] builds from it is never empty. *)
Theorem X10_supported_mime_type (isTypeSupported : string -> bool) (chunks : list Blob) :
  let type := App1.getSupportedMimeType isTypeSupported in
  ((type = EmptyString
    /\ Forall (fun t => isTypeSupported t = false) App1.mime_types)
   \/ exists before after,
        App1.mime_types = (before ++ type :: after)%list
        /\ isTypeSupported type = true
        /\ Forall (fun t => isTypeSupported t = false) before)
  /\ blob_type (new_Blob chunks (JS.or_str type "audio/wav")) ∈ App1.mime_types.
Proof.
  intros type; subst type; unfold App1.getSupportedMimeType.
  split; [apply first_supported_spec|].
  destruct (first_supported_spec isTypeSupported App1.mime_types)
    as [[-> _]|(before & after & Ht & _ & _)]; cbn [new_Blob blob_type].
  - apply list_elem_of_In; cbn; auto 10.
  - assert (App1.first_supported isTypeSupported App1.mime_types ∈ App1.mime_types)
      as Hin.
    { rewrite Ht at 2; apply list_elem_of_In, in_or_app; right; left; reflexivity. }
    destruct (App1.first_supported isTypeSupported App1.mime_types) eqn:E; [|exact Hin].
    apply list_elem_of_In; cbn; auto 10.
Qed.

(** X11: a login under a name that the directory does not hold is
    turned down, whatever the password: the store and the current user
    stay as they were and an error is shown. *)
Theorem X11_login_unknown_name (form : AuthForm) (st : AuthState) :
  isRegistering form = false ->
  load_users (localStorage st) !! username form = None ->
  (localStorage (App1.handleAuth form st) = localStorage st
   /\ currentUser (App1.handleAuth form st) = currentUser st
   /\ authError (App1.handleAuth form st) <> EmptyString)
  /\ (localStorage (App4.handleAuth form st) = localStorage st
      /\ currentUser (App4.handleAuth form st) = currentUser st
      /\ authError (App4.handleAuth form st) <> EmptyString).
Proof.
  intros Hreg Hnone.
  unfold App1.handleAuth, App4.handleAuth; cbv zeta; cbn [localStorage].
  destruct (negb (JS.truthy (username form)) || negb (JS.truthy (password form)));
    [repeat split; discriminate|].
  rewrite Hreg; unfold get_property; rewrite Hnone.
  case_bool_decide; cbn; repeat split; discriminate.
Qed.

(** Nobody is called carol in the directory that holds alice. *)
Lemma X11_login_unknown_name_witness :
  App1.handleAuth (mkForm "carol" "secret" A1 English false) one_user
  = mkAuth None "Invalid username or password" (localStorage one_user)
  /\ localStorage (App4.handleAuth (mkForm "carol" "secret" A1 English false) one_user)
     = localStorage one_user.
Proof.
  split; [vm_compute; reflexivity|].
  refine (proj1 (proj2
    (X11_login_unknown_name (mkForm "carol" "secret" A1 English false) one_user _ _)));
    vm_compute; reflexivity.
Defined.

(** X12: a name that every object inherits from [Object.prototype],
    such as constructor or toString, cannot be registered: [users[name]]
    is truthy though the directory holds no such user, and the handler
    answers that the user exists, changing nothing. *)
Theorem X12_inherited_name_not_registered (form : AuthForm) (st : AuthState) :
  isRegistering form = true ->
  username form ∈ object_prototype_names ->
  (localStorage (App1.handleAuth form st) = localStorage st
   /\ currentUser (App1.handleAuth form st) = currentUser st
   /\ authError (App1.handleAuth form st) <> EmptyString)
  /\ (localStorage (App4.handleAuth form st) = localStorage st
      /\ currentUser (App4.handleAuth form st) = currentUser st
      /\ authError (App4.handleAuth form st) <> EmptyString).
Proof.
  intros Hreg Hin.
  unfold App1.handleAuth, App4.handleAuth; cbv zeta; cbn [localStorage].
  destruct (negb (JS.truthy (username form)) || negb (JS.truthy (password form)));
    [repeat split; discriminate|].
  rewrite Hreg; unfold get_property.
  destruct (load_users (localStorage st) !! username form); cbn;
    [repeat split; discriminate|].
  rewrite bool_decide_eq_true_2 by exact Hin; cbn; repeat split; discriminate.
Qed.

(** A registration as toString in an empty store. *)
Lemma X12_inherited_name_not_registered_witness :
  App1.handleAuth (mkForm "toString" "pw" A1 English true) fresh_store
  = mkAuth None "User already exists" (localStorage fresh_store).
Proof.
  pose proof (X12_inherited_name_not_registered
                (mkForm "toString" "pw" A1 English true) fresh_store eq_refl) as H.
  destruct H as [(Hls & Hu & _) _].
  { apply (bool_decide_eq_true_1 _); vm_compute; reflexivity. }
  vm_compute; reflexivity.
Defined.

(** X13: [handleAuth] never removes or changes an entry of the
    directory: whatever the form, every name other than the one
    submitted, and every name the directory held, resolves after the
    call as it did before. *)
Theorem X13_directory_entries_kept (form : AuthForm) (st : AuthState) (name : string) :
  name <> username form \/ is_Some (load_users (localStorage st) !! name) ->
  load_users (localStorage (App1.handleAuth form st)) !! name
  = load_users (localStorage st) !! name
  /\ load_users (localStorage (App4.handleAuth form st)) !! name
     = load_users (localStorage st) !! name.
Proof.
  intros Hname; split.
  - destruct (App1_handleAuth_cases form st) as [(-> & _)|(u & _ & _ & _ & _ & Hdb)];
      [reflexivity|].
    exact (directory_kept _ _ name _ _ Hdb Hname).
  - destruct (App4_handleAuth_cases form st) as [(-> & _)|(u & _ & _ & _ & Hdb)];
      [reflexivity|].
    exact (directory_kept _ _ name _ _ Hdb Hname).
Qed.

(** Bob registers next to alice, whose entry stays. *)
Lemma X13_directory_entries_kept_witness :
  load_users (localStorage
                (App1.handleAuth (mkForm "bob" "pw" C1 Russian true) one_user))
    !! "alice"
  = Some alice.
Proof.
  refine (eq_trans (proj1 (X13_directory_entries_kept
                             (mkForm "bob" "pw" C1 Russian true) one_user "alice" _)) _).
  - left; discriminate.
  - vm_compute; reflexivity.
Defined.



(** X15: in src/App.tsx a registration leaves no error exactly when
    both fields are filled in and the name resolves to nothing in the
    directory, neither to a user nor to an inherited member; the
    directory then holds the password, the level and the target language
    of the form under that name, and the new user is the current one. *)
Theorem X15_registration_outcome (form : AuthForm) (st : AuthState) :
  isRegistering form = true ->
  (authError (App1.handleAuth form st) = EmptyString
   <-> username form <> EmptyString /\ password form <> EmptyString
       /\ load_users (localStorage st) !! username form = None
       /\ username form ∉ object_prototype_names)
  /\ (authError (App1.handleAuth form st) = EmptyString ->
      let user := mkUser (username form) (level form) (targetLanguage form) in
      App1.handleAuth form st
      = mkAuth (Some user) EmptyString
          (mkStorage (Some user)
             (Some (<[username form :=
                        mkStored (password form) (level form) (targetLanguage form)]>
                      (load_users (localStorage st)))))).
Proof.
  intros Hreg.
  unfold App1.handleAuth; cbv zeta; cbn [localStorage currentUser authError].
  rewrite Hreg, <- !truthy_nonempty; unfold get_property.
  destruct (JS.truthy (username form)), (JS.truthy (password form));
    cbn; try (split; [split; [discriminate|intros (? & ? & _); congruence]|discriminate]).
  destruct (load_users (localStorage st) !! username form) as [u|]; cbn.
  { split; [split; [discriminate|intros (_ & _ & ? & _); congruence]|discriminate]. }
  case_bool_decide as Hin; cbn.
  - split; [split; [discriminate|intros (_ & _ & _ & ?); contradiction]|discriminate].
  - split; [split; auto|reflexivity].
Qed.

(** Bob registers next to alice. *)
Lemma X15_registration_outcome_witness :
  authError (App1.handleAuth (mkForm "bob" "pw" C1 Russian true) one_user) = EmptyString
  /\ load_users (localStorage
                   (App1.handleAuth (mkForm "bob" "pw" C1 Russian true) one_user))
       !! "bob"
     = Some (mkStored "pw" C1 Russian).
Proof.
  pose proof (X15_registration_outcome (mkForm "bob" "pw" C1 Russian true) one_user
                eq_refl) as [Hiff Hst].
  assert (authError (App1.handleAuth (mkForm "bob" "pw" C1 Russian true) one_user)
          = EmptyString) as Hok.
  { apply Hiff; split; [discriminate|]. split; [discriminate|].
    split; [vm_compute; reflexivity|].
    apply (bool_decide_eq_false_1 _); vm_compute; reflexivity. }
  split; [exact Hok|]. rewrite (Hst Hok); vm_compute; reflexivity.
Defined.

(** ** Properties of src/App.tsx as a whole, next to the service of
       src/services/geminiService.ts *)

(** X16: in every state the user can bring the component to, the
    record of the current user in the store is the current user of the
    component, and no send or recording is left in progress. *)
Theorem X16_store_agrees_and_nothing_pending (ls : LocalStorage) (w : App1.World) :
  App1.reachable ls w ->
  tutor_user (localStorage (App1.w_auth w)) = currentUser (App1.w_auth w)
  /\ isProcessing (App1.w_chat w) = false.
Proof. intros H; destruct (reachable_steady ls w H) as (? & ? & _); auto. Qed.

(** Alice in her interview. *)
Lemma X16_store_agrees_and_nothing_pending_witness :
  tutor_user (localStorage (App1.w_auth alice_interview))
  = Some (mkUser "alice" B2 Russian)
  /\ isProcessing (App1.w_chat alice_interview) = false.
Proof.
  destruct (X16_store_agrees_and_nothing_pending store_alice alice_interview
              alice_interview_reachable) as [Hs Hp].
  split; [rewrite Hs; reflexivity|exact Hp].
Defined.

(** X17: whatever the user does in the three screens, no account of
    the directory is lost or changed: a name that the directory held
    when the component was mounted resolves to the same record in every
    state the user can reach. *)
Theorem X17_accounts_kept
    (ls : LocalStorage) (w : App1.World) (name : string) (u : StoredUser) :
  App1.reachable ls w ->
  load_users ls !! name = Some u ->
  load_users (localStorage (App1.w_auth w)) !! name = Some u.
Proof. intros H; destruct (reachable_steady ls w H) as (_ & _ & Hd & _); auto. Qed.

(** The record of alice after her interview and her scenario. *)
Lemma X17_accounts_kept_witness :
  load_users (localStorage (App1.w_auth alice_airport)) !! "alice" = Some alice.
Proof.
  apply (X17_accounts_kept store_alice alice_airport "alice" alice
           alice_airport_reachable).
  vm_compute; reflexivity.
Defined.

(** X18: whenever the chat screen shows, somebody is logged in and the
    service has a chat, created with the instruction for the level and
    the language of that user and for the mode on display; so a send
    from the chat screen never fails on a chat that is undefined. *)
Theorem X18_chat_screen_has_session (ls : LocalStorage) (w : App1.World) :
  App1.reachable ls w ->
  App1.screen w = App1.ChatScreen ->
  exists u,
    currentUser (App1.w_auth w) = Some u
    /\ Service1.chat (App1.w_service w)
       = Some (Service1.instructions (user_level u)
                 (goal_name (user_targetLanguage u)) (App1.w_mode w)
                 (Service1.customScenario (App1.w_service w)))
    /\ forall remote,
         Service1.sendMessage (App1.w_service w) remote
         = (response_text ← remote; mret (JS.or_undef response_text EmptyString)).
Proof.
  intros H Hs; destruct (reachable_steady ls w H) as (_ & _ & _ & Hfit).
  unfold session_fits in Hfit; unfold App1.screen in Hs.
  destruct (currentUser (App1.w_auth w)) as [u|]; [|discriminate].
  exists u; split; [reflexivity|].
  destruct Hfit as [Hm|[Hc _]]; [rewrite Hm in Hs; discriminate|].
  split; [exact Hc|].
  intros remote; unfold Service1.sendMessage; rewrite Hc; reflexivity.
Qed.

(** The session of the interview of alice, who is at level B2 and
    learns Russian. *)
Lemma X18_chat_screen_has_session_witness :
  App1.screen alice_interview = App1.ChatScreen
  /\ Service1.chat (App1.w_service alice_interview)
     = Some (Service1.instructions B2 "Russian" INTERVIEW EmptyString).
Proof.
  split; [reflexivity|].
  destruct (X18_chat_screen_has_session store_alice alice_interview
              alice_interview_reachable eq_refl) as (u & Hu & Hc & _).
  rewrite Hc; injection Hu as <-; reflexivity.
Defined.

(** X19: in custom mode the scenario of the session is the text typed
    in the menu, it is not blank, and the instruction of the chat holds
    it word for word in its context clause. *)
Theorem X19_custom_scenario_in_session (ls : LocalStorage) (w : App1.World) :
  App1.reachable ls w ->
  App1.w_mode w = CUSTOM ->
  Service1.customScenario (App1.w_service w) = App1.w_customScenarioInput w
  /\ JS.trim (App1.w_customScenarioInput w) <> EmptyString
  /\ exists instruction,
       Service1.chat (App1.w_service w) = Some instruction
       /\ JS.includes
            ("Context: " +:+ App1.w_customScenarioInput w
             +:+ ". Adopt this persona/scenario strictly.")
            instruction = true.
Proof.
  intros H Hm; destruct (reachable_steady ls w H) as (_ & _ & _ & Hfit).
  unfold session_fits in Hfit.
  destruct (currentUser (App1.w_auth w)) as [u|]; [|congruence].
  destruct Hfit as [Hmenu|[Hc Hcustom]]; [congruence|].
  destruct (Hcustom Hm) as [Hs Ht].
  split; [exact Hs|]. split; [exact Ht|].
  eexists; split; [exact Hc|].
  rewrite Hm, Hs; apply (Service1_mode_clause _ _ CUSTOM).
Qed.

(** The scenario of alice at the airport. *)
Lemma X19_custom_scenario_in_session_witness :
  App1.w_mode alice_airport = CUSTOM
  /\ Service1.customScenario (App1.w_service alice_airport) = "At the airport".
Proof.
  split; [reflexivity|].
  destruct (X19_custom_scenario_in_session store_alice alice_airport
              alice_airport_reachable eq_refl) as (Hs & _).
  rewrite Hs; reflexivity.
Defined.

(** ** Further properties of the service *)

(** X20: in custom mode the instruction holds the scenario word for
    word inside its context clause, whatever the scenario is, in the
    services of src/services/geminiService.ts, part_000 and part_001. *)
Theorem X20_custom_scenario_verbatim
    (level : EnglishLevel) (targetLanguage scenario : string) :
  JS.includes ("Context: " +:+ scenario +:+ ". Adopt this persona/scenario strictly.")
    (Service1.instructions level targetLanguage CUSTOM scenario) = true
  /\ JS.includes ("Context: " +:+ scenario +:+ ". Adopt this persona/scenario strictly.")
       (Service2.systemInstruction level targetLanguage CUSTOM scenario) = true
  /\ JS.includes ("Context: " +:+ scenario)
       (Service3.systemInstruction level targetLanguage CUSTOM scenario) = true
  /\ JS.includes scenario
       (Service1.instructions level targetLanguage CUSTOM scenario) = true.
Proof.
  split; [exact (Service1_mode_clause level targetLanguage CUSTOM scenario)|].
  split; [exact (Service2_mode_clause level targetLanguage CUSTOM scenario)|].
  split; [exact (Service3_mode_clause level targetLanguage CUSTOM scenario)|].
  apply (includes_trans _ (modeInstruction CUSTOM scenario) _);
    [|exact (Service1_mode_clause level targetLanguage CUSTOM scenario)].
  apply (includes_skip scenario "Context: "), includes_here.
Qed.

(** X21: outside custom mode the scenario plays no part: two sessions
    that differ in the scenario only get the same instruction. *)
Theorem X21_scenario_ignored_outside_custom
    (level : EnglishLevel) (targetLanguage : string) (mode : PracticeMode)
    (scenario scenario' : string) :
  mode <> CUSTOM ->
  Service1.instructions level targetLanguage mode scenario
  = Service1.instructions level targetLanguage mode scenario'
  /\ Service2.systemInstruction level targetLanguage mode scenario
     = Service2.systemInstruction level targetLanguage mode scenario'
  /\ Service3.systemInstruction level targetLanguage mode scenario
     = Service3.systemInstruction level targetLanguage mode scenario'.
Proof. intros Hm; destruct mode; try contradiction; repeat split. Qed.

(** An interview with and without a scenario left over. *)
Lemma X21_scenario_ignored_outside_custom_witness :
  Service1.instructions B1 "English" INTERVIEW "At the airport"
  = Service1.instructions B1 "English" INTERVIEW EmptyString.
Proof.
  refine (proj1 (X21_scenario_ignored_outside_custom B1 "English" INTERVIEW
                   "At the airport" EmptyString _)).
  discriminate.
Defined.

(** X22: in part_001, without a key of the API, [sendMessage] and
    [processAudio] are rejected with the message that says so, whatever
    the model would have answered, and [getSpeech] gives the empty
    string. *)
Theorem X22_missing_api_key
    (apiKey : option string) (remote : JS.completion (option string)) :
  apiKey = None \/ apiKey = Some EmptyString ->
  let missing :=
    JS.Error "API_KEY is missing in the environment. Please ensure it is configured." in
  Service3.sendMessage apiKey remote = JS.Throw missing
  /\ Service3.processAudio apiKey remote = JS.Throw missing
  /\ Service3.getSpeech apiKey remote = JS.Normal EmptyString.
Proof. intros [-> | ->]; repeat split. Qed.

(** No key, and a model that would have answered. *)
Lemma X22_missing_api_key_witness :
  Service3.sendMessage None (JS.Normal (Some "Hello!"))
  = JS.Throw
      (JS.Error "API_KEY is missing in the environment. Please ensure it is configured.").
Proof.
  exact (proj1 (X22_missing_api_key None (JS.Normal (Some "Hello!")) (or_introl eq_refl))).
Defined.

(** X23: in part_001 the text that [sendMessage] or [processAudio]
    resolves to is never empty, the error they reject with always
    carries a message, and [getSpeech] never rejects. *)
Theorem X23_wrapped_outcomes
    (apiKey : option string) (remote : JS.completion (option string)) :
  match Service3.sendMessage apiKey remote with
  | JS.Normal text => text <> EmptyString
  | JS.Throw err => exn_message err <> EmptyString
  end
  /\ match Service3.processAudio apiKey remote with
     | JS.Normal text => text <> EmptyString
     | JS.Throw err => exn_message err <> EmptyString
     end
  /\ exists audio, Service3.getSpeech apiKey remote = JS.Normal audio.
Proof.
  unfold Service3.sendMessage, Service3.processAudio, Service3.getSpeech,
    Service3.getAI.
  destruct (JS.truthy (default EmptyString apiKey)); cbn.
  - destruct remote as [text|err]; cbn.
    + repeat split; eauto; apply or_undef_nonempty; discriminate.
    + repeat split; eauto; apply or_str_nonempty; discriminate.
  - repeat split; eauto; discriminate.
Qed.

(** X24: the type that [processAudio] of part_000 sends for a clip is
    never empty and holds no semicolon, whatever the type of the clip;
    the one of part_001 holds no semicolon either. *)
Theorem X24_request_mime_type (audioBlob : Blob) :
  Service2.request_mimeType audioBlob <> EmptyString
  /\ JS.includes ";" (Service2.request_mimeType audioBlob) = false
  /\ exists type,
       Service3.request_mimeType audioBlob = Some type
       /\ JS.includes ";" type = false.
Proof.
  unfold Service2.request_mimeType, Service3.request_mimeType.
  rewrite (split_head ";" EmptyString).
  pose proof (before_first_clean ";" (blob_type audioBlob) ltac:(discriminate)) as Hc.
  split; [apply or_undef_nonempty; discriminate|]. split.
  - cbn; destruct (before_first ";" (blob_type audioBlob)) eqn:E; [reflexivity|].
    exact Hc.
  - destruct (JS.includes ";" (blob_type audioBlob)) eqn:Hi; [eauto|].
    eexists; split; [reflexivity|].
    destruct (blob_type audioBlob); [reflexivity|exact Hi].
Qed.

(** ** Starting a practice, updating the profile, playing the answer *)

(** X25: [startPractice] does nothing when nobody is logged in.  For a
    user it sets the mode, replaces whatever the conversation held by one
    greeting of the tutor, and opens a chat whose instruction is the one
    for the level and the language of that user, the mode and the
    scenario: it holds the description of the level and the label of the
    language. *)
Theorem X25_startPractice_restarts
    (stamp : Stamp) (selectedMode : PracticeMode) (scenario : string) (w : App1.World) :
  let w' := App1.startPractice stamp selectedMode scenario w in
  match currentUser (App1.w_auth w) with
  | None => w' = w
  | Some u =>
      let instruction :=
        Service1.instructions (user_level u) (goal_name (user_targetLanguage u))
          selectedMode scenario in
      messages (App1.w_chat w') = [stamped stamp TUTOR (App1.greetText selectedMode u)]
      /\ App1.w_mode w' = selectedMode
      /\ App1.w_auth w' = App1.w_auth w
      /\ Service1.chat (App1.w_service w') = Some instruction
      /\ JS.includes (Service1.levelDescriptions (user_level u)) instruction = true
      /\ JS.includes (goal_name (user_targetLanguage u) +:+ " Tutor") instruction = true
  end.
Proof.
  intros w'; subst w'; unfold App1.startPractice.
  destruct (currentUser (App1.w_auth w)) as [u|]; [|reflexivity].
  cbv zeta; cbn.
  repeat split; [apply Service1_level_clause|apply Service1_label_clause].
Qed.

(** X26: for a current user whose name the directory holds,
    [handleProfileUpdate] writes the updated profile to the component,
    to the record of the current user and to the directory, where the
    password stays and every other account is left alone; the
    conversation and the mode are not touched, and outside the menu the
    session is restarted for the new profile.  A later login under the
    name of that entry, with the same password, gets the updated level
    and language. *)
Theorem X26_profile_update
    (updates : PartialUser) (w : App1.World) (u : User) (s : StoredUser) :
  currentUser (App1.w_auth w) = Some u ->
  load_users (localStorage (App1.w_auth w)) !! user_name u = Some s ->
  exists w',
    App1.handleProfileUpdate updates w = Some w'
    /\ currentUser (App1.w_auth w') = Some (merge_user u updates)
    /\ tutor_user (localStorage (App1.w_auth w')) = Some (merge_user u updates)
    /\ load_users (localStorage (App1.w_auth w')) !! user_name u
       = Some (mkStored (stored_password s)
                 (default (stored_level s) (upd_level updates))
                 (default (stored_targetLanguage s) (upd_targetLanguage updates)))
    /\ (forall name, name <> user_name u ->
        load_users (localStorage (App1.w_auth w')) !! name
        = load_users (localStorage (App1.w_auth w)) !! name)
    /\ App1.w_chat w' = App1.w_chat w
    /\ App1.w_mode w' = App1.w_mode w
    /\ (App1.w_mode w <> MENU ->
        Service1.chat (App1.w_service w')
        = Some (Service1.instructions (user_level (merge_user u updates))
                  (goal_name (user_targetLanguage (merge_user u updates)))
                  (App1.w_mode w) (App1.w_customScenarioInput w)))
    /\ (forall l g,
          user_name u <> EmptyString -> stored_password s <> EmptyString ->
          currentUser
            (App1.handleAuth (mkForm (user_name u) (stored_password s) l g false)
               (App1.handleLogout (App1.w_auth w')))
          = Some (mkUser (user_name u)
                    (default (stored_level s) (upd_level updates))
                    (default (stored_targetLanguage s) (upd_targetLanguage updates)))).
Proof.
  intros Hu Hs; unfold App1.handleProfileUpdate; rewrite Hu; cbv zeta.
  rewrite (get_property_own _ _ _ Hs).
  eexists; split; [reflexivity|]; cbn.
  split; [reflexivity|]. split; [reflexivity|].
  split; [apply lookup_insert_eq|].
  split; [intros name Hn; apply lookup_insert_ne; congruence|].
  split; [reflexivity|]. split; [reflexivity|].
  split; [destruct (App1.w_mode w); try contradiction; reflexivity|].
  intros l g Hn Hp; apply truthy_nonempty in Hn, Hp.
  unfold App1.handleAuth, App1.handleLogout; cbv zeta; cbn.
  rewrite Hn, Hp; cbn.
  unfold get_property, load_users; cbn; rewrite lookup_insert_eq; cbn.
  rewrite String.eqb_refl, goal_or_id; reflexivity.
Qed.

(** Alice, in the menu, moves from B2 to C1. *)
Lemma X26_profile_update_witness :
  exists w',
    App1.handleProfileUpdate to_C1 alice_menu = Some w'
    /\ currentUser (App1.w_auth w') = Some (mkUser "alice" C1 Russian)
    /\ load_users (localStorage (App1.w_auth w')) !! "alice"
       = Some (mkStored "secret" C1 Russian).
Proof.
  destruct (X26_profile_update to_C1 alice_menu (mkUser "alice" B2 Russian) alice)
    as (w' & Hw & Hc & _ & Hd & _); [reflexivity|vm_compute; reflexivity|].
  exists w'; split; [exact Hw|]. split; [exact Hc|exact Hd].
Defined.

(** X27: after an answered send, [isPlaying] is up in src/App.tsx
    exactly when the speech came back with audio that decoded; in
    part_002 it is also up when the speech came back empty, since
    [playResponse] returns there without lowering the flag. *)
Theorem X27_isPlaying_after_send (env : Env) (st : Chat) (response : string) :
  JS.trim (inputText st) <> EmptyString ->
  isProcessing st = false ->
  reply env = JS.Normal response ->
  isPlaying (fst (App1.handleSendText env st))
  = match speech env with
    | JS.Normal audio => JS.truthy audio && decodes env
    | JS.Throw _ => false
    end
  /\ isPlaying (fst (App3.handleSendText env st))
     = match speech env with
       | JS.Normal audio => negb (JS.truthy audio) || decodes env
       | JS.Throw _ => false
       end.
Proof.
  intros Ht Hp Hr.
  unfold App1.handleSendText, App3.handleSendText.
  rewrite (send_guard st Ht Hp), Hr; cbv zeta.
  unfold playResponse, App3.playResponse.
  destruct (speech env) as [audio|e]; [destruct (JS.truthy audio), (decodes env)|];
    split; reflexivity.
Qed.

(** The service answers, and the speech comes back empty. *)
Lemma X27_isPlaying_after_send_witness :
  isPlaying (fst (App1.handleSendText speech_empty typed_hello)) = false
  /\ isPlaying (fst (App3.handleSendText speech_empty typed_hello)) = true.
Proof.
  destruct (X27_isPlaying_after_send speech_empty typed_hello "Hi there")
    as [H1 H3]; [vm_compute; discriminate|reflexivity|reflexivity|].
  split; [rewrite H1|rewrite H3]; reflexivity.
Defined.

(** X28: the prompts announce the marker the parsers split at: the
    text [processAudio] of src/services/geminiService.ts sends holds
    [RESPONSE], and the instructions of part_000 and part_001 hold both
    [TRANSCRIPTION] and [RESPONSE], whatever the level, the language,
    the mode and the scenario. *)
Theorem X28_prompts_name_the_marker
    (svc : Service1.Service) (audioBlob : Blob) (data : string)
    (level : EnglishLevel) (targetLanguage : string) (mode : PracticeMode)
    (scenario : string) :
  JS.includes RESPONSE
    (Service1.req_text (Service1.processAudio_request svc audioBlob data)) = true
  /\ JS.includes TRANSCRIPTION
       (Service2.systemInstruction level targetLanguage mode scenario) = true
  /\ JS.includes RESPONSE
       (Service2.systemInstruction level targetLanguage mode scenario) = true
  /\ JS.includes TRANSCRIPTION
       (Service3.systemInstruction level targetLanguage mode scenario) = true
  /\ JS.includes RESPONSE
       (Service3.systemInstruction level targetLanguage mode scenario) = true.
Proof.
  unfold Service1.processAudio_request, Service2.systemInstruction,
    Service3.systemInstruction; cbn [Service1.req_text].
  repeat split;
    repeat (apply includes_literal_tail; try reflexivity).
Qed.
